(** * Cafe & WiFi directory: a shallow embedding of [main.py]

    The application is a Flask program: two mapped classes ([Cafe], [User]),
    five WTForms forms, nine view functions.  The embedding follows the
    source top-down:

    - Python [str] values are sequences of code points;
    - [decimal.Decimal] is embedded with its constructor from a string and
      its ['.2f'] formatting, since the price of a cafe is stored as the
      formatted text;
    - the SQLite tables are lists of rows in rowid order, with the
      [primary_key] and [unique] constraints of the mapped columns checked
      when the session flushes;
    - a view function is a computation over the database, the login session
      and the flashed messages, that either returns a response or raises. *)

From Stdlib Require Import List Bool String Ascii NArith ZArith Lia.
From Stdlib Require Import DecimalN DecimalPos.
Import ListNotations.

Local Open Scope N_scope.

(* ================================================================== *)
(** ** Python strings *)

(** A Python [str] is a sequence of Unicode code points. *)
Definition str := list N.

(** [py "abc"] is the literal ['abc'] (ASCII literals only). *)
Definition py (s : string) : str :=
  map N_of_ascii (list_ascii_of_string s).

(** ['£'], U+00A3. *)
Definition pound : N := 163.

Fixpoint str_eqb (a b : str) : bool :=
  match a, b with
  | [], [] => true
  | x :: a', y :: b' => (x =? y) && str_eqb a' b'
  | _, _ => false
  end.

(** Equality of values that may be [None]. *)
Definition opt_eqb {A} (eqb : A -> A -> bool) (a b : option A) : bool :=
  match a, b with
  | Some x, Some y => eqb x y
  | None, None => true
  | _, _ => false
  end.

(** [c.isspace()]: the code points that [str.strip()] removes. *)
Definition isspace (c : N) : bool :=
  ((9 <=? c) && (c <=? 13)) || ((28 <=? c) && (c <=? 32))
  || (c =? 133) || (c =? 160) || (c =? 5760)
  || ((8192 <=? c) && (c <=? 8202))
  || (c =? 8232) || (c =? 8233) || (c =? 8239) || (c =? 8287)
  || (c =? 12288).

Fixpoint lstrip (s : str) : str :=
  match s with
  | c :: s' => if isspace c then lstrip s' else s
  | [] => []
  end.

Definition rstrip (s : str) : str := rev (lstrip (rev s)).

(** [s.strip()] *)
Definition strip (s : str) : str := rstrip (lstrip s).

(** [s.replace(old, new)] for a one-character [old]. *)
Definition replace (old : N) (new : str) (s : str) : str :=
  flat_map (fun c => if c =? old then new else [c]) s.

(** [len(s)] *)
Definition len (s : str) : N := N.of_nat (List.length s).

Definition is_digit (c : N) : bool := (48 <=? c) && (c <=? 57).

(** ASCII lower-casing, as the [re.IGNORECASE] match of the keywords of a
    numeric string needs it. *)
Definition lower (c : N) : N :=
  if (65 <=? c) && (c <=? 90) then c + 32 else c.

(** [str(n)] for a non-negative integer, through the decimal digits of
    the standard library. *)
Fixpoint str_of_uint (u : Decimal.uint) : str :=
  match u with
  | Decimal.Nil => []
  | Decimal.D0 u' => 48 :: str_of_uint u'
  | Decimal.D1 u' => 49 :: str_of_uint u'
  | Decimal.D2 u' => 50 :: str_of_uint u'
  | Decimal.D3 u' => 51 :: str_of_uint u'
  | Decimal.D4 u' => 52 :: str_of_uint u'
  | Decimal.D5 u' => 53 :: str_of_uint u'
  | Decimal.D6 u' => 54 :: str_of_uint u'
  | Decimal.D7 u' => 55 :: str_of_uint u'
  | Decimal.D8 u' => 56 :: str_of_uint u'
  | Decimal.D9 u' => 57 :: str_of_uint u'
  end.

Definition str_of_N (n : N) : str := str_of_uint (N.to_uint n).

(** [int(digits)] for a string of ASCII digits, leading zeros allowed;
    the empty string counts as [0] (the callers test for it). *)
Definition int_of_digits (ds : str) : N :=
  fold_left (fun acc c => 10 * acc + (c - 48)) ds 0.

(** The longest prefix of digits, and what follows it. *)
Fixpoint span_digits (s : str) : str * str :=
  match s with
  | c :: s' =>
      if is_digit c
      then let (ds, rest) := span_digits s' in (c :: ds, rest)
      else ([], s)
  | [] => ([], [])
  end.

(* ================================================================== *)
(** ** decimal.Decimal *)

(** A [Decimal] is a sign, a coefficient and an exponent, or one of the
    special values.  The coefficient is kept as a number: Python keeps its
    digit string without leading zeros.  The diagnostic digits of a NaN
    are a number too, [0] for none. *)
Inductive Decimal : Type :=
| Finite (sign : bool) (coeff : N) (exp : Z)
| Infinity (sign : bool)
| NaN (sign : bool) (signaling : bool) (diag : N).

(** The optional sign of a numeric string. *)
Definition take_sign (s : str) : bool * str :=
  match s with
  | c :: s' =>
      if c =? 45 then (true, s')
      else if c =? 43 then (false, s')
      else (false, s)
  | [] => (false, [])
  end.

(** The optional exponent part [E[-+]?\d+] that must end the string. *)
Definition parse_exponent (s : str) : option Z :=
  match s with
  | [] => Some 0%Z
  | c :: s' =>
      if lower c =? 101 then
        let (neg, ds) := take_sign s' in
        match span_digits ds with
        | ([], _) => None
        | (e, []) =>
            let v := Z.of_N (int_of_digits e) in
            Some (if neg then (- v)%Z else v)
        | _ => None
        end
      else None
  end.

(** The number alternative: digits, an optional fraction, an optional
    exponent, with a digit somewhere before the exponent. *)
Definition parse_number (sign : bool) (s : str) : option Decimal :=
  let (ip, r1) := span_digits s in
  let '(fp, r2) :=
    match r1 with
    | 46 :: r => span_digits r
    | _ => ([], r1)
    end in
  match ip ++ fp with
  | [] => None
  | ds =>
      match parse_exponent r2 with
      | Some e =>
          Some (Finite sign (int_of_digits ds)
                  (e - Z.of_nat (List.length fp)))
      | None => None
      end
  end.

(** The special-value alternatives: [Inf], [Infinity], [NaN] and [sNaN]
    with optional diagnostic digits, in any letter case. *)
Definition parse_special (sign : bool) (s : str) : option Decimal :=
  let l := map lower s in
  if str_eqb l (py "inf") || str_eqb l (py "infinity") then
    Some (Infinity sign)
  else
    match l with
    | 110 :: 97 :: 110 :: d =>
        match span_digits d with
        | (ds, []) => Some (NaN sign false (int_of_digits ds))
        | _ => None
        end
    | 115 :: 110 :: 97 :: 110 :: d =>
        match span_digits d with
        | (ds, []) => Some (NaN sign true (int_of_digits ds))
        | _ => None
        end
    | _ => None
    end.

(** [decimal.Decimal(s)]: [None] stands for [InvalidOperation].  The
    string is stripped of surrounding whitespace and of underscores, then
    matched against the numeric-string grammar.  Digits are the ASCII
    digits; Python also reads the decimal digits of other scripts.  The
    limits of the library are not part of this constructor: Python raises
    [InvalidOperation] for an exponent or a number of digits beyond about
    [10^18], where a number is read here. *)
Definition Decimal_of_str (s : str) : option Decimal :=
  let (sign, body) := take_sign (replace 95 [] (strip s)) in
  match parse_number sign body with
  | Some d => Some d
  | None => parse_special sign body
  end.

(** [bool(d)]: only a finite zero is false. *)
Definition Decimal_bool (d : Decimal) : bool :=
  match d with
  | Finite _ c _ => negb (c =? 0)
  | _ => true
  end.

(** [d >= 0] for a [d] that is not a NaN. *)
Definition Decimal_ge0 (d : Decimal) : bool :=
  match d with
  | Finite s c _ => negb s || (c =? 0)
  | Infinity s => negb s
  | NaN _ _ _ => false
  end.

(** [10 ** k] *)
Definition pow10 (k : Z) : N := 10 ^ Z.to_N k.

(** [q] rounded to nearest, ties to even, from the quotient [q] and the
    remainder [r] of a division by [m]: the context's [ROUND_HALF_EVEN]. *)
Definition round_half_even (q r m : N) : N :=
  if m <? 2 * r then q + 1
  else if (2 * r =? m) && N.odd q then q + 1
  else q.

(** [d._rescale(-2, ROUND_HALF_EVEN)] on a finite [d]: the coefficient of
    the result, whose exponent is [-2]. *)
Definition rescale2 (c : N) (e : Z) : N :=
  if c =? 0 then 0
  else if (-2 <=? e)%Z then c * pow10 (e + 2)
  else
    let m := pow10 (- 2 - e) in
    round_half_even (c / m) (c mod m) m.

Definition sign_str (sign : bool) : str := if sign then [45] else [].

(** The two digits after the point. *)
Definition two_digits (n : N) : str := [48 + n / 10; 48 + n mod 10].

(** [d._rescale(-2, rounding)]: special values are returned as they
    are. *)
Definition rescale (d : Decimal) : Decimal :=
  match d with
  | Finite s c e => Finite s (rescale2 c e) (-2)
  | _ => d
  end.

(** The text of ["{:.2f}".format(d)], when the call returns (see
    [Decimal_format] for when it does). *)
Definition format_2f (d : Decimal) : str :=
  match d with
  | Finite s c e =>
      let c' := rescale2 c e in
      sign_str s ++ str_of_N (c' / 100) ++ [46] ++ two_digits (c' mod 100)
  | Infinity s => sign_str s ++ py "Infinity"
  | NaN s g d =>
      sign_str s ++ (if g then py "sNaN" else py "NaN")
      ++ (if d =? 0 then [] else str_of_N d)
  end.



(* ================================================================== *)
(** ** Exceptions and fallible computations *)

(** The exceptions that the modelled code can raise. *)
Inductive Exn : Type :=
| NoResultFound          (* sqlalchemy.exc, from [scalar_one] *)
| MultipleResultsFound   (* sqlalchemy.exc, from [scalar_one] *)
| IntegrityError         (* sqlalchemy.exc, a constraint failed at flush *)
| InvalidOperation       (* decimal, from [Decimal(str)] *)
| TypeError
| ValueError
| AttributeError
| OverflowError          (* an integer too large for SQLite *)
| MemoryError.

Inductive Result (A : Type) : Type :=
| Ok (a : A)
| Raise (e : Exn).
Arguments Ok {A} a.
Arguments Raise {A} e.

Definition Result_bind {A B} (r : Result A) (k : A -> Result B) : Result B :=
  match r with
  | Ok a => k a
  | Raise e => Raise e
  end.

(** The largest precision of the decimal library (64-bit build). *)
Definition MPD_MAX_PREC : Z := 999999999999999999.

(** The number of digits of the coefficient that formatting [d] with two
    decimals writes out: a positive exponent is padded with zeros. *)
Definition digits_to_write (d : Decimal) : Z :=
  match d with
  | Finite _ c e =>
      if c =? 0 then 1
      else Z.max 1 (Z.of_nat (List.length (str_of_N c)) + (e + 2))
  | _ => 0
  end.

(** ["{:.2f}".format(d)] in a process that has memory for a number of
    [capacity] digits: a coefficient beyond the limits of the library
    raises [ValueError], one beyond the memory raises [MemoryError]. *)
Definition Decimal_format (capacity : N) (d : Decimal) : Result str :=
  if (MPD_MAX_PREC + 1 <? digits_to_write d)%Z then Raise ValueError
  else if (Z.of_N capacity <? digits_to_write d)%Z then Raise MemoryError
  else Ok (format_2f d).

(* ================================================================== *)
(** ** The mapped classes *)

(** An attribute of a mapped object holds [None] until it is assigned;
    [id] is assigned by the database when the row is inserted. *)
Module Cafe.
Record t : Type := mk {
  id : option N;
  name : option str;
  map_url : option str;
  img_url : option str;
  location : option str;
  has_sockets : option bool;
  has_toilet : option bool;
  has_wifi : option bool;
  can_take_calls : option bool;
  seats : option str;
  coffee_price : option str
}.

(** [Cafe()] *)
Definition new : t :=
  mk None None None None None None None None None None None.
End Cafe.

Module User.
Record t : Type := mk {
  id : option N;
  email : option str;
  password_hash : option str;
  name : option str
}.

(** [User()] *)
Definition new : t := mk None None None None.
End User.

(* ================================================================== *)
(** ** The database *)

(** The two tables, rows in rowid order. *)
Record DB : Type := mkDB {
  cafes : list Cafe.t;
  users : list User.t
}.

Definition is_some {A} (o : option A) : bool :=
  match o with Some _ => true | None => false end.

(** The rowid SQLite gives to a new row: one more than the largest. *)
Definition next_id (ids : list (option N)) : N :=
  1 + fold_right (fun i m => match i with Some k => N.max k m | None => m end)
        0 ids.

(** Columns declared without [nullable=True] are [NOT NULL]. *)
Definition cafe_not_null (c : Cafe.t) : bool :=
  is_some (Cafe.name c) && is_some (Cafe.map_url c)
  && is_some (Cafe.img_url c) && is_some (Cafe.location c)
  && is_some (Cafe.has_sockets c) && is_some (Cafe.has_toilet c)
  && is_some (Cafe.has_wifi c) && is_some (Cafe.can_take_calls c).

Definition user_not_null (u : User.t) : bool :=
  is_some (User.email u) && is_some (User.password_hash u)
  && is_some (User.name u).

Definition with_cafe_id (k : N) (c : Cafe.t) : Cafe.t :=
  Cafe.mk (Some k) (Cafe.name c) (Cafe.map_url c) (Cafe.img_url c)
    (Cafe.location c) (Cafe.has_sockets c) (Cafe.has_toilet c)
    (Cafe.has_wifi c) (Cafe.can_take_calls c) (Cafe.seats c)
    (Cafe.coffee_price c).

Definition with_user_id (k : N) (u : User.t) : User.t :=
  User.mk (Some k) (User.email u) (User.password_hash u) (User.name u).

Definition has_cafe_name (n : option str) (c : Cafe.t) : bool :=
  opt_eqb str_eqb (Cafe.name c) n.

Definition has_cafe_id (k : N) (c : Cafe.t) : bool :=
  opt_eqb N.eqb (Cafe.id c) (Some k).

Definition has_email (e : option str) (u : User.t) : bool :=
  opt_eqb str_eqb (User.email u) e.

Definition has_user_id (k : N) (u : User.t) : bool :=
  opt_eqb N.eqb (User.id u) (Some k).

(** [db.session.add(cafe); db.session.commit()] for a new [cafe]: the
    INSERT fails on a NULL in a [NOT NULL] column or on a name already in
    the table ([unique=True]); otherwise the row gets its id. *)
Definition insert_cafe (c : Cafe.t) (d : DB) : Result (Cafe.t * DB) :=
  if cafe_not_null c && negb (existsb (has_cafe_name (Cafe.name c)) (cafes d))
  then
    let c' := with_cafe_id (next_id (map Cafe.id (cafes d))) c in
    Ok (c', mkDB (cafes d ++ [c']) (users d))
  else Raise IntegrityError.

(** [db.session.add(user); db.session.commit()] for a new [user]. *)
Definition insert_user (u : User.t) (d : DB) : Result (User.t * DB) :=
  if user_not_null u && negb (existsb (has_email (User.email u)) (users d))
  then
    let u' := with_user_id (next_id (map User.id (users d))) u in
    Ok (u', mkDB (cafes d) (users d ++ [u']))
  else Raise IntegrityError.

(** [db.session.commit()] after the attributes of the loaded row [k] were
    set to those of [c]: the UPDATE fails on a NULL or when another row
    has the new name. *)
Definition update_cafe (k : N) (c : Cafe.t) (d : DB) : Result DB :=
  if cafe_not_null c
     && negb (existsb (fun r => has_cafe_name (Cafe.name c) r
                                && negb (has_cafe_id k r)) (cafes d))
  then Ok (mkDB (map (fun r => if has_cafe_id k r then c else r) (cafes d))
             (users d))
  else Raise IntegrityError.

(** [db.session.commit()] after [user.name] of the loaded row [k] was set. *)
Definition update_user (k : N) (u : User.t) (d : DB) : Result DB :=
  if user_not_null u
  then Ok (mkDB (cafes d)
             (map (fun r => if has_user_id k r then u else r) (users d)))
  else Raise IntegrityError.

(** [db.session.delete(cafe); db.session.commit()] *)
Definition delete_cafe_row (k : N) (d : DB) : DB :=
  mkDB (filter (fun r => negb (has_cafe_id k r)) (cafes d)) (users d).

(** [db.session.get(Cafe, k)]: [None] when there is no such row; an id
    that does not fit the 64-bit integers of SQLite raises
    [OverflowError] when it is bound to the query. *)
Definition get_cafe (k : N) (d : DB) : Result (option Cafe.t) :=
  if 9223372036854775808 <=? k then Raise OverflowError
  else Ok (find (has_cafe_id k) (cafes d)).

(** [db.session.execute(db.select(User).filter_by(email=e)).scalar()]:
    the first matching row, or [None]. *)
Definition select_user_by_email (e : option str) (d : DB) : option User.t :=
  find (has_email e) (users d).

(** [db.session.execute(db.select(User).filter_by(id=k)).scalar_one()]:
    exactly one row, or an exception. *)
Definition select_user_by_id_one (k : N) (d : DB) : Result User.t :=
  match filter (has_user_id k) (users d) with
  | [u] => Ok u
  | [] => Raise NoResultFound
  | _ => Raise MultipleResultsFound
  end.

(* ================================================================== *)
(** ** Requests, responses and the view monad *)

Inductive Method : Type := GET | POST.

(** [request.form], a multi-dict: the submitted pairs in order. *)
Definition FormData := list (string * str).

(** [formdata.getlist(name)] *)
Definition getlist (name : string) (fd : FormData) : list str :=
  map snd (filter (fun kv => String.eqb (fst kv) name) fd).

(** A request as a view function sees it.  [CSRFProtect(app)] checks the
    anti-forgery token before any view runs, so the requests here are those
    that passed it.  [entropy] is the salt that the password hasher draws
    while the request is served, [capacity] the number of digits for which
    the process has memory when it formats a number. *)
Record Request : Type := mkRequest {
  method : Method;
  url : str;                  (* request.url, relative to the site *)
  args_next : option str;     (* request.args.get('next') *)
  form : FormData;            (* request.form *)
  referrer : option str;      (* request.referrer *)
  entropy : str;
  capacity : N
}.

(** The routes of the application; [login] carries its [next] argument. *)
Inductive Endpoint : Type :=
| Eindex
| Eshow_cafe (cafe_id : option N)
| Eadd_cafe
| Eedit_cafe (cafe_id : N)
| Edelete_cafe (cafe_id : N)
| Eedit_profile
| Esignup
| Elogin (next : option str)
| Elogout.

(** The argument of [redirect]: [url_for(endpoint, ...)] or a string
    taken from the request, which may be [None]. *)
Inductive Location : Type :=
| url_for (e : Endpoint)
| Url (u : option str).

Inductive FieldError : Type :=
| Required          (* DataRequired *)
| TooShort          (* Length(min=8) *)
| BelowMinimum      (* NumberRange(min=0) *)
| NotAValidChoice.  (* SelectField.pre_validate *)

(** [form.errors]: the fields that have errors, with their errors. *)
Definition Errors := list (string * list FieldError).

(** A flashed message with its category. *)
Definition Flash := (string * string)%type.

(** The login session, the database and the messages flashed so far. *)
Record World : Type := mkWorld {
  db : DB;
  session : option N;         (* session['_user_id'] *)
  flashes : list Flash
}.

(** A view either returns or raises; an exception that leaves the view is
    answered by Flask with the generic 500 page, the process goes on. *)
Inductive Outcome (A : Type) : Type :=
| Return (a : A) (w : World)
| Raised (e : Exn) (w : World).
Arguments Return {A} a w.
Arguments Raised {A} e w.

Definition M (A : Type) : Type := World -> Outcome A.

Definition ret {A} (a : A) : M A := fun w => Return a w.

Definition bind {A B} (m : M A) (k : A -> M B) : M B :=
  fun w => match m w with
           | Return a w' => k a w'
           | Raised e w' => Raised e w'
           end.

Definition lift {A} (r : Result A) : M A :=
  fun w => match r with
           | Ok a => Return a w
           | Raise e => Raised e w
           end.

Declare Scope view_scope.
Delimit Scope view_scope with view.
Notation "x <- m ;; k" := (bind m (fun x => k))
  (at level 61, m at next level, right associativity) : view_scope.
Notation "m ;;; k" := (bind m (fun _ => k))
  (at level 61, right associativity) : view_scope.
Local Open Scope view_scope.

Definition get_db : M DB := fun w => Return (db w) w.

Definition put_db (d : DB) : M unit :=
  fun w => Return tt (mkWorld d (session w) (flashes w)).

(** [flash(message, category)] *)
Definition flash (message category : string) : M unit :=
  fun w => Return tt (mkWorld (db w) (session w)
                        (flashes w ++ [(message, category)])).

(* ================================================================== *)
(** ** The forms *)

(** [FlaskForm.is_submitted()] *)
Definition is_submitted (req : Request) : bool :=
  match method req with POST => true | GET => false end.

(** The data a [FlaskForm()] binds: [request.form] when the request is a
    submission, nothing otherwise (every field then takes its default,
    as it does for a name missing from the submission). *)
Definition formdata (req : Request) : FormData :=
  if is_submitted req then form req else [].

(** The [data] of a [StringField] (and of [EmailField], [URLField],
    [PasswordField] and [SelectField] with [coerce=str]): [valuelist[0]],
    [None] when the name is missing. *)
Definition StringField_data (name : string) (fd : FormData) : option str :=
  hd_error (getlist name fd).

(** The [data] of a [BooleanField] (and of [SubmitField]): false when the
    name is missing or its value is one of [false_values]. *)
Definition BooleanField_data (name : string) (fd : FormData) : option bool :=
  match getlist name fd with
  | [] => Some false
  | v :: _ => Some (negb (str_eqb v (py "false") || str_eqb v []))
  end.

(** The [data] of a [DecimalField]: [Decimal(valuelist[0])], [None] when
    the name is missing or the text is not a numeric string. *)
Definition DecimalField_data (name : string) (fd : FormData)
  : option Decimal :=
  match getlist name fd with
  | [] => None
  | v :: _ => Decimal_of_str v
  end.

(** [DataRequired()] on a string field: the data is there and is not
    blank. *)
Definition DataRequired (data : option str) : bool :=
  match data with
  | Some s => match strip s with [] => false | _ => true end
  | None => false
  end.

(** The errors of a field with [validators=[DataRequired()]]. *)
Definition validate_required (data : option str) : list FieldError :=
  if DataRequired data then [] else [Required].

(** The errors of a field with
    [validators=[DataRequired(), Length(min=8)]]; a failed [DataRequired]
    stops the chain. *)
Definition validate_password (data : option str) : list FieldError :=
  match data with
  | Some s =>
      if DataRequired data
      then if 8 <=? len s then [] else [TooShort]
      else [Required]
  | None => [Required]
  end.

(** [math.isnan(d)]: converting a signaling NaN to a float raises. *)
Definition math_isnan (d : Decimal) : Result bool :=
  match d with
  | NaN _ false _ => Ok true
  | NaN _ true _ => Raise ValueError
  | _ => Ok false
  end.

(** The errors of [coffee_price], with
    [validators=[DataRequired(), NumberRange(min=0)]]: [DataRequired]
    passes a [Decimal] that is true; [NumberRange] rejects a NaN and a
    number below [0]. *)
Definition validate_coffee_price (data : option Decimal)
  : Result (list FieldError) :=
  match data with
  | Some d =>
      if Decimal_bool d then
        Result_bind (math_isnan d) (fun nan =>
          if negb nan && Decimal_ge0 d then Ok [] else Ok [BelowMinimum])
      else Ok [Required]
  | None => Ok [Required]
  end.

(** The entry of a field in [form.errors]. *)
Definition field_errors (name : string) (errs : list FieldError) : Errors :=
  match errs with
  | [] => []
  | _ => [(name, errs)]
  end.

Module SignupForm.
Record t : Type := mk {
  email : option str;
  name : option str;
  password : option str;
  submit : option bool
}.

Definition make (fd : FormData) : t :=
  mk (StringField_data "email" fd) (StringField_data "name" fd)
     (StringField_data "password" fd) (BooleanField_data "submit" fd).

Definition validate (self : t) : Errors :=
  field_errors "email" (validate_required (email self))
  ++ field_errors "name" (validate_required (name self))
  ++ field_errors "password" (validate_password (password self)).
End SignupForm.

Module LoginForm.
Record t : Type := mk {
  email : option str;
  password : option str;
  submit : option bool
}.

Definition make (fd : FormData) : t :=
  mk (StringField_data "email" fd) (StringField_data "password" fd)
     (BooleanField_data "submit" fd).

Definition validate (self : t) : Errors :=
  field_errors "email" (validate_required (email self))
  ++ field_errors "password" (validate_password (password self)).
End LoginForm.

Module AddCafeForm.
Record t : Type := mk {
  name : option str;
  map_url : option str;
  img_url : option str;
  location : option str;
  has_sockets : option bool;
  has_wifi : option bool;
  can_take_calls : option bool;
  has_toilet : option bool;
  seats : option str;
  coffee_price : option Decimal;
  submit : option bool
}.

Definition seat_choices : list str :=
  map py ["0-10"; "10-20"; "20-30"; "30-40"; "40-50"; "50+"]%string.

Definition make (fd : FormData) : t :=
  mk (StringField_data "name" fd) (StringField_data "map_url" fd)
     (StringField_data "img_url" fd) (StringField_data "location" fd)
     (BooleanField_data "has_sockets" fd) (BooleanField_data "has_wifi" fd)
     (BooleanField_data "can_take_calls" fd)
     (BooleanField_data "has_toilet" fd)
     (StringField_data "seats" fd) (DecimalField_data "coffee_price" fd)
     (BooleanField_data "submit" fd).

(** [SelectField.pre_validate]: the data is one of the choices. *)
Definition validate_seats (data : option str) : list FieldError :=
  match data with
  | Some s => if existsb (str_eqb s) seat_choices then []
              else [NotAValidChoice]
  | None => [NotAValidChoice]
  end.

Definition validate (self : t) : Result Errors :=
  Result_bind (validate_coffee_price (coffee_price self)) (fun price_errs =>
    Ok (field_errors "name" (validate_required (name self))
        ++ field_errors "map_url" (validate_required (map_url self))
        ++ field_errors "img_url" (validate_required (img_url self))
        ++ field_errors "location" (validate_required (location self))
        ++ field_errors "seats" (validate_seats (seats self))
        ++ field_errors "coffee_price" price_errs)).

(** [capacity] is the memory of the process for the formatted price. *)
Definition populate_obj (capacity : N) (self : t) (obj : Cafe.t)
  : Result Cafe.t :=
  match coffee_price self with
  | Some d =>
      Result_bind (Decimal_format capacity d) (fun text =>
        Ok (Cafe.mk (Cafe.id obj) (name self) (map_url self) (img_url self)
              (location self) (has_sockets self) (has_toilet self)
              (has_wifi self) (can_take_calls self) (seats self)
              (Some (pound :: text))))
  | None => Raise TypeError
  end.

(** [str(cafe.coffee_price)]: the text, or ['None']. *)
Definition str_of_price (p : option str) : str :=
  match p with
  | Some s => s
  | None => py "None"
  end.

Definition prefill_form (self : t) (cafe : Cafe.t) : Result t :=
  match Decimal_of_str (replace pound [] (str_of_price (Cafe.coffee_price cafe)))
  with
  | Some d =>
      Ok (mk (Cafe.name cafe) (Cafe.map_url cafe) (Cafe.img_url cafe)
            (Cafe.location cafe) (Cafe.has_sockets cafe)
            (Cafe.has_wifi cafe) (Cafe.can_take_calls cafe)
            (Cafe.has_toilet cafe) (Cafe.seats cafe) (Some d)
            (submit self))
  | None => Raise InvalidOperation
  end.
End AddCafeForm.

Module DeleteCafeForm.
Record t : Type := mk {
  submit_delete : option bool;
  submit_cancel : option bool
}.

Definition make (fd : FormData) : t :=
  mk (BooleanField_data "submit_delete" fd)
     (BooleanField_data "submit_cancel" fd).

Definition validate (self : t) : Errors := [].
End DeleteCafeForm.

Module EditProfileForm.
Record t : Type := mk {
  name : option str;
  submit : option bool
}.

Definition make (fd : FormData) : t :=
  mk (StringField_data "name" fd) (BooleanField_data "submit" fd).

Definition validate (self : t) : Errors :=
  field_errors "name" (validate_required (name self)).
End EditProfileForm.

(** [form.validate()] succeeded: no field has an error. *)
Definition no_errors (e : Errors) : bool :=
  match e with [] => true | _ => false end.

(** Truth of a value that may be [None]. *)
Definition truthy (b : option bool) : bool :=
  match b with Some true => true | _ => false end.

(** The form given to [form.html]. *)
Inductive AnyForm : Type :=
| signup_form (f : SignupForm.t)
| login_form (f : LoginForm.t)
| cafe_form (f : AddCafeForm.t)
| delete_form (f : DeleteCafeForm.t)
| profile_form (f : EditProfileForm.t).

(** [render_template(...)], with the template arguments the views pass
    (the map key and the search query of [cafe.html] are left out). *)
Inductive Page : Type :=
| index_html (cafes : list Cafe.t)
| cafe_html (cafe : Cafe.t)
| form_html (heading : string) (form : AnyForm) (errors : Errors)
    (action : Endpoint).

Inductive Response : Type :=
| render_template (p : Page)
| redirect (l : Location)
| abort (code : N).

(* ================================================================== *)
(** ** Sessions and the login guard *)

(** Whom [current_user] stands for. *)
Inductive Actor : Type :=
| Anonymous
| Authenticated (u : User.t).

(** The user loader given to the login manager. *)
Definition load_user (user_id : N) : M User.t :=
  d <- get_db ;; lift (select_user_by_id_one user_id d).

(** [current_user]: the anonymous user when the session carries no user
    id, else what [load_user] returns for that id. *)
Definition current_user : M Actor :=
  fun w =>
    match session w with
    | None => Return Anonymous w
    | Some user_id => (u <- load_user user_id ;; ret (Authenticated u)) w
    end.

(** [render_template(...)] in a view: before the template is rendered,
    the context processor of the login manager resolves [current_user], so
    that rendering raises what [load_user] raises. *)
Definition render (p : Page) : M Response :=
  current_user ;;; ret (render_template p).

(** [login_user(user)]: the session now carries the id of [user]. *)
Definition login_user (user : User.t) : M unit :=
  fun w => Return tt (mkWorld (db w) (User.id user) (flashes w)).

(** [logout_user()] *)
Definition logout_user : M unit :=
  fun w => Return tt (mkWorld (db w) None (flashes w)).

(** [login_manager.unauthorized()] with [login_view = 'login']: the
    login message is flashed and the answer is a redirect to the login
    view, with the requested URL as its [next] argument. *)
Definition unauthorized (req : Request) : M Response :=
  flash "Please log in to access this page." "message" ;;;
  ret (redirect (url_for (Elogin (Some (url req))))).

(** The [@login_required] decorator. *)
Definition login_required (view : Request -> M Response)
  : Request -> M Response :=
  fun req =>
    actor <- current_user ;;
    match actor with
    | Authenticated _ => view req
    | Anonymous => unauthorized req
    end.

(* ================================================================== *)
(** ** The view functions *)

Section Views.

(** The password hasher of werkzeug: [generate_password_hash] with the
    salt it draws, and [check_password_hash]. *)
Variable generate_password_hash : str -> str -> str.
Variable check_password_hash : str -> str -> bool.

Definition index (req : Request) : M Response :=
  d <- get_db ;;
  render (index_html (cafes d)).

Definition show_cafe (cafe_id : N) (req : Request) : M Response :=
  d <- get_db ;;
  found <- lift (get_cafe cafe_id d) ;;
  match found with
  | None => ret (abort 404)
  | Some cafe => render (cafe_html cafe)
  end.

Definition add_cafe_view (req : Request) : M Response :=
  let form := AddCafeForm.make (formdata req) in
  errors <- (if is_submitted req then lift (AddCafeForm.validate form)
             else ret []) ;;
  if is_submitted req && no_errors errors then
    cafe <- lift (AddCafeForm.populate_obj (capacity req) form Cafe.new) ;;
    d <- get_db ;;
    r <- lift (insert_cafe cafe d) ;;
    put_db (snd r) ;;;
    ret (redirect (url_for (Eshow_cafe (Cafe.id (fst r)))))
  else
    render (form_html "Add cafe" (cafe_form form) errors Eadd_cafe).

Definition add_cafe : Request -> M Response :=
  login_required add_cafe_view.

Definition edit_cafe_view (cafe_id : N) (req : Request) : M Response :=
  d <- get_db ;;
  found <- lift (get_cafe cafe_id d) ;;
  match found with
  | None => ret (abort 404)
  | Some cafe =>
      let form := AddCafeForm.make (formdata req) in
      form <- (match method req with
               | GET => lift (AddCafeForm.prefill_form form cafe)
               | POST => ret form
               end) ;;
      errors <- (if is_submitted req then lift (AddCafeForm.validate form)
                 else ret []) ;;
      if is_submitted req && no_errors errors then
        cafe' <- lift (AddCafeForm.populate_obj (capacity req) form cafe) ;;
        d' <- lift (update_cafe cafe_id cafe' d) ;;
        put_db d' ;;;
        ret (redirect (url_for (Eshow_cafe (Cafe.id cafe'))))
      else
        render (form_html "Edit cafe" (cafe_form form) errors
                  (Eedit_cafe cafe_id))
  end.

Definition edit_cafe (cafe_id : N) : Request -> M Response :=
  login_required (edit_cafe_view cafe_id).

Definition delete_cafe_view (cafe_id : N) (req : Request) : M Response :=
  d <- get_db ;;
  found <- lift (get_cafe cafe_id d) ;;
  match found with
  | None => ret (abort 404)
  | Some cafe =>
      let form := DeleteCafeForm.make (formdata req) in
      let errors := if is_submitted req then DeleteCafeForm.validate form
                    else [] in
      let page :=
        render (form_html "Delete cafe" (delete_form form) errors
                  (Edelete_cafe cafe_id)) in
      if is_submitted req && no_errors errors then
        if truthy (DeleteCafeForm.submit_delete form) then
          put_db (delete_cafe_row cafe_id d) ;;;
          ret (redirect (url_for Eindex))
        else if truthy (DeleteCafeForm.submit_cancel form) then
          ret (redirect (url_for (Eshow_cafe (Some cafe_id))))
        else page
      else page
  end.

Definition delete_cafe (cafe_id : N) : Request -> M Response :=
  login_required (delete_cafe_view cafe_id).

Definition edit_profile_view (req : Request) : M Response :=
  user <- current_user ;;
  let form := EditProfileForm.make (formdata req) in
  let errors := if is_submitted req then EditProfileForm.validate form
                else [] in
  if is_submitted req && no_errors errors then
    match user with
    | Authenticated u =>
        d <- get_db ;;
        match User.id u with
        | Some k =>
            d' <- lift (update_user k
                          (User.mk (User.id u) (User.email u)
                             (User.password_hash u)
                             (EditProfileForm.name form)) d) ;;
            put_db d'
        | None => ret tt
        end
    | Anonymous => ret tt
    end ;;;
    ret (redirect (url_for Eindex))
  else
    render (form_html "Edit name" (profile_form form) errors Eedit_profile).

Definition edit_profile : Request -> M Response :=
  login_required edit_profile_view.

Definition signup (req : Request) : M Response :=
  let form := SignupForm.make (formdata req) in
  let errors := if is_submitted req then SignupForm.validate form else [] in
  if is_submitted req && no_errors errors then
    d <- get_db ;;
    (* check if user with same email exists *)
    match select_user_by_email (SignupForm.email form) d with
    | Some same_user =>
        flash "User with this email already exists" "danger" ;;;
        ret (redirect (url_for Esignup))
    | None =>
        (* if user with this email does not exist we add one *)
        hash <- lift (match SignupForm.password form with
                      | Some p => Ok (generate_password_hash (entropy req) p)
                      | None => Raise AttributeError
                      end) ;;
        let user := User.mk None (SignupForm.email form) (Some hash)
                      (SignupForm.name form) in
        r <- lift (insert_user user d) ;;
        put_db (snd r) ;;;
        ret (redirect (url_for (Elogin None)))
    end
  else
    render (form_html "Signup" (signup_form form) errors Esignup).

(** [check_password_hash(user.password_hash, form.password.data)] *)
Definition check_password (pwhash password : option str) : Result bool :=
  match pwhash, password with
  | Some h, Some p => Ok (check_password_hash h p)
  | _, _ => Raise AttributeError
  end.

Definition login (req : Request) : M Response :=
  let next_page := args_next req in
  let form := LoginForm.make (formdata req) in
  let errors := if is_submitted req then LoginForm.validate form else [] in
  let page :=
    render (form_html "Login" (login_form form) errors (Elogin next_page)) in
  if is_submitted req && no_errors errors then
    d <- get_db ;;
    let user := select_user_by_email (LoginForm.email form) d in
    (match user with
     | None => flash "User with this email does not exist" "danger"
     | Some _ => ret tt
     end) ;;;
    ok <- (match user with
           | Some u => lift (check_password (User.password_hash u)
                               (LoginForm.password form))
           | None => ret false
           end) ;;
    match user, ok with
    | Some u, true =>
        login_user u ;;;
        match next_page with
        | Some _ => ret (redirect (Url next_page))
        | None => ret (redirect (url_for Eindex))
        end
    | _, _ =>
        flash "Password is incorrect" "danger" ;;;
        page
    end
  else page.

Definition logout_view (req : Request) : M Response :=
  logout_user ;;;
  ret (redirect (Url (referrer req))).

Definition logout : Request -> M Response :=
  login_required logout_view.

End Views.

(* ================================================================== *)
(** ** The rules in the words of the specification *)

(** A text "formatted to exactly 2 decimals": digits, a point, two
    digits. *)
Definition two_decimals (s : str) : bool :=
  match span_digits s with
  | (_ :: _, [46; a; b]) => is_digit a && is_digit b
  | _ => false
  end.

(** The stored price of the specification: the currency symbol followed
    by a text with exactly two decimals. *)
Definition currency_two_decimals (p : option str) : bool :=
  match p with
  | Some (c :: s) => (c =? pound) && two_decimals s
  | _ => false
  end.

Definition is_alpha (c : N) : bool := (97 <=? lower c) && (lower c <=? 122).

Fixpoint span_alpha (s : str) : str * str :=
  match s with
  | c :: s' =>
      if is_alpha c
      then let (ds, rest) := span_alpha s' in (c :: ds, rest)
      else ([], s)
  | [] => ([], [])
  end.

(** The URL-shape rule of the specification, "syntactic well-formedness
    only": a scheme of letters, [://], and something after it.  The source
    has no counterpart of this rule. *)
Definition url_shape (s : str) : bool :=
  match span_alpha s with
  | (_ :: _, 58 :: 47 :: 47 :: _ :: _) => true
  | _ => false
  end.

(** Required-presence of the specification: the submission has a value
    for the field, and the value is not blank. *)
Definition present (name : string) (fd : FormData) : Prop :=
  exists v, hd_error (getlist name fd) = Some v /\ strip v <> [].

(** The submitted text of a field, [[]] when it is missing. *)
Definition submitted (name : string) (fd : FormData) : str :=
  match getlist name fd with
  | v :: _ => v
  | [] => []
  end.

(** Enumerated-choice of the specification: the submitted seats are one
    of the bucket choices. *)
Definition seats_ok (fd : FormData) : Prop :=
  In (submitted "seats" fd) AddCafeForm.seat_choices.

(** Numeric-range of the specification: the submitted price reads as a
    [Decimal] that is at least [0]. *)
Definition price_at_least_0 (fd : FormData) : Prop :=
  exists d, Decimal_of_str (submitted "coffee_price" fd) = Some d
            /\ Decimal_ge0 d = true.

(** Minimum-length of the specification: a password that is present and
    has at least 8 characters. *)
Definition password_ok (fd : FormData) : Prop :=
  present "password" fd /\ 8 <= len (submitted "password" fd).

(** The field [name] has an entry in [form.errors]. *)
Definition in_error (name : string) (errs : Errors) : bool :=
  existsb (fun e => String.eqb (fst e) name) errs.

(** No two rows have the same value in the column [f]: what a
    [primary_key] or [unique] column guarantees. *)
Definition unique_on {A B} (f : A -> B) (rows : list A) : Prop :=
  NoDup (map f rows).

(** The page of the login view. *)
Definition login_page (req : Request) (errors : Errors) : Response :=
  render_template
    (form_html "Login" (login_form (LoginForm.make (formdata req))) errors
       (Elogin (args_next req))).

(** The page of the signup view. *)
Definition signup_page (req : Request) (errors : Errors) : Response :=
  render_template
    (form_html "Signup" (signup_form (SignupForm.make (formdata req))) errors
       Esignup).

(** The session of [w] resolves: it carries no user id, or the id of
    exactly one user, so that [current_user] returns. *)
Definition session_resolves (w : World) : Prop :=
  exists actor, current_user w = Return actor w.

(** The world after [flash(message, category)]. *)
Definition flashed (w : World) (message category : string) : World :=
  mkWorld (db w) (session w) (flashes w ++ [(message, category)]).

(** The world once the session carries [user_id]. *)
Definition logged_in (w : World) (user_id : option N) : World :=
  mkWorld (db w) user_id (flashes w).

(** The object that [populate_obj] fills, beside the id, from the form
    bound to the submission [fd] when the price of the form is [price]. *)
Definition submitted_cafe (id : option N) (fd : FormData) (price : Decimal)
  : Cafe.t :=
  Cafe.mk id (StringField_data "name" fd) (StringField_data "map_url" fd)
    (StringField_data "img_url" fd) (StringField_data "location" fd)
    (BooleanField_data "has_sockets" fd) (BooleanField_data "has_toilet" fd)
    (BooleanField_data "has_wifi" fd) (BooleanField_data "can_take_calls" fd)
    (StringField_data "seats" fd) (Some (pound :: format_2f price)).


(* ================================================================== *)
(** ** Sample data *)

(** A hasher to run the views with: the "hash" is the password behind a
    fixed tag. *)
Definition toy_generate (salt password : str) : str := py "hash:" ++ password.
Definition toy_check (pwhash password : str) : bool :=
  str_eqb pwhash (py "hash:" ++ password).

Definition alice : User.t :=
  User.mk (Some 1) (Some (py "alice@example.com"))
    (Some (py "hash:correct horse")) (Some (py "Alice")).

(** One user, no cafe; nobody is logged in. *)
Definition visitor_world : World := mkWorld (mkDB [] [alice]) None [].

(** The same, with Alice logged in. *)
Definition alice_world : World := mkWorld (mkDB [] [alice]) (Some 1) [].

Definition post (u : string) (fd : FormData) : Request :=
  mkRequest POST (py u) None fd None [] 1000000.

Definition cafe_submission (name price : string) : FormData :=
  [("name", py name); ("map_url", py "https://maps.example/soho");
   ("img_url", py "https://img.example/soho.png"); ("location", py "Soho");
   ("has_wifi", py "y"); ("seats", py "10-20");
   ("coffee_price", py price); ("submit", py "Add cafe")]%string.

Definition login_submission (email password : string) : FormData :=
  [("email", py email); ("password", py password);
   ("submit", py "Login")]%string.

(** Alice's world once her submission of a flat white has been served. *)
Definition flat_white_world : World :=
  mkWorld
    (mkDB
       [Cafe.mk (Some 1) (Some (py "Flat White"))
          (Some (py "https://maps.example/soho"))
          (Some (py "https://img.example/soho.png")) (Some (py "Soho"))
          (Some false) (Some false) (Some true) (Some false)
          (Some (py "10-20")) (Some (pound :: py "2.50"))]
       [alice])
    (Some 1) [].

(** A session that carries the id of a user who has no row. *)
Definition stale_world : World := mkWorld (mkDB [] [alice]) (Some 7) [].


(** A submission whose two URL fields are plain words. *)
Definition plain_words_submission : FormData :=
  [("name", py "Flat White"); ("map_url", py "somewhere");
   ("img_url", py "picture"); ("location", py "Soho");
   ("seats", py "10-20"); ("coffee_price", py "2.5")]%string.

(** The cafe that Alice's submission of a flat white at 2.5 creates. *)
Definition flat_white : Cafe.t :=
  Cafe.mk (Some 1) (Some (py "Flat White"))
    (Some (py "https://maps.example/soho"))
    (Some (py "https://img.example/soho.png")) (Some (py "Soho"))
    (Some false) (Some false) (Some true) (Some false)
    (Some (py "10-20")) (Some (pound :: py "2.50")).

(** The characters of a formatted [Decimal]: digits, letters, the sign
    and the point; no whitespace, no underscore, no currency symbol. *)
Definition plain_char (c : N) : bool :=
  (45 <=? c) && (c <=? 122) && negb (c =? 95).

(** The value of the digits [ds] read after a prefix of value [acc]. *)
Definition digits_value (acc : N) (ds : str) : N :=
  fold_left (fun acc c => 10 * acc + (c - 48)) ds acc.

(* ================================================================== *)
(** ** Outcomes and invariants of the database *)

(** The world a view leaves, whether it returned or raised. *)
Definition outcome_world {A} (o : Outcome A) : World :=
  match o with
  | Return _ w => w
  | Raised _ w => w
  end.

(** The [primary_key] and [unique] columns of both tables hold no value
    twice. *)
Definition db_unique (d : DB) : Prop :=
  unique_on Cafe.id (cafes d) /\ unique_on Cafe.name (cafes d)
  /\ unique_on User.id (users d) /\ unique_on User.email (users d).

(** The distance between two natural numbers. *)
Definition distance (a b : N) : N := N.max a b - N.min a b.

(** A second cafe beside the flat white. *)
Definition espresso_bar : Cafe.t :=
  Cafe.mk (Some 2) (Some (py "Espresso Bar"))
    (Some (py "https://maps.example/city"))
    (Some (py "https://img.example/city.png")) (Some (py "City"))
    (Some true) (Some true) (Some false) (Some false)
    (Some (py "0-10")) None.

(** Alice logged in, two cafes; the second has no price. *)
Definition two_cafes_world : World :=
  mkWorld
    (mkDB
       [Cafe.mk (Some 1) (Some (py "Flat White"))
          (Some (py "https://maps.example/soho"))
          (Some (py "https://img.example/soho.png")) (Some (py "Soho"))
          (Some false) (Some false) (Some true) (Some false)
          (Some (py "10-20")) (Some (pound :: py "2.50"));
        espresso_bar]
       [alice])
    (Some 1) [].

Definition get (u : string) : Request :=
  mkRequest GET (py u) None [] None [] 1000000.

(* ================================================================== *)
(** * Properties *)

(** ** Strings and digits *)

Lemma str_eqb_refl (s : str) : str_eqb s s = true.
Proof.
  induction s as [|c s IH]; simpl; [reflexivity|].
  now rewrite N.eqb_refl.
Qed.

Lemma str_eqb_eq (a b : str) : str_eqb a b = true <-> a = b.
Proof.
  split.
  - revert b; induction a as [|x a IH]; intros [|y b]; simpl;
      try discriminate; [reflexivity|].
    intros H. apply andb_true_iff in H as [Hx Hab].
    apply N.eqb_eq in Hx. subst. f_equal. now apply IH.
  - intros ->. apply str_eqb_refl.
Qed.

Lemma plain_char_facts (c : N) :
  plain_char c = true ->
  isspace c = false /\ (c =? 95) = false /\ (c =? pound) = false.
Proof.
  unfold plain_char, isspace, pound. intros H.
  apply andb_true_iff in H as [H H95].
  apply andb_true_iff in H as [Hlo Hhi].
  apply N.leb_le in Hlo. apply N.leb_le in Hhi.
  apply negb_true_iff in H95.
  repeat split; [|exact H95|apply N.eqb_neq; lia].
  repeat (apply orb_false_iff; split);
    try (apply N.eqb_neq; lia);
    apply andb_false_iff;
    first [left; apply N.leb_gt; lia | right; apply N.leb_gt; lia].
Qed.

Lemma lstrip_head (c : N) (s : str) :
  isspace c = false -> lstrip (c :: s) = c :: s.
Proof. intros H. simpl. now rewrite H. Qed.

Lemma strip_id (s : str) :
  Forall (fun c => isspace c = false) s -> strip s = s.
Proof.
  intros H. unfold strip, rstrip.
  assert (L : forall t, Forall (fun c => isspace c = false) t -> lstrip t = t).
  { intros [|c t] Ht; [reflexivity|].
    apply lstrip_head. now inversion Ht. }
  rewrite (L s H). rewrite L.
  - apply rev_involutive.
  - apply Forall_forall. intros c Hc. apply in_rev in Hc.
    now apply (proj1 (Forall_forall _ _) H).
Qed.

Lemma replace_absent (old : N) (s : str) :
  Forall (fun c => (c =? old) = false) s -> replace old [] s = s.
Proof.
  unfold replace. induction 1 as [|c s Hc _ IH]; simpl; [reflexivity|].
  rewrite Hc. simpl. now rewrite IH.
Qed.

Lemma is_digit_plain (c : N) : is_digit c = true -> plain_char c = true.
Proof.
  unfold is_digit, plain_char. intros H.
  apply andb_true_iff in H as [Hlo Hhi].
  apply N.leb_le in Hlo. apply N.leb_le in Hhi.
  repeat (apply andb_true_iff; split);
    [apply N.leb_le; lia | apply N.leb_le; lia |].
  apply negb_true_iff. apply N.eqb_neq. lia.
Qed.

Lemma str_of_uint_digits (u : Decimal.uint) :
  Forall (fun c => is_digit c = true) (str_of_uint u).
Proof. induction u; simpl; constructor; auto. Qed.

Lemma str_of_N_digits (n : N) : Forall (fun c => is_digit c = true) (str_of_N n).
Proof. apply str_of_uint_digits. Qed.

Lemma str_of_N_nonempty (n : N) : str_of_N n <> [].
Proof.
  unfold str_of_N. destruct n as [|p]; simpl; [discriminate|].
  pose proof (DecimalPos.Unsigned.to_uint_nonnil p) as H.
  destruct (Pos.to_uint p); simpl; congruence.
Qed.

Lemma digits_value_pos (u : Decimal.uint) (p : positive) :
  digits_value (N.pos p) (str_of_uint u) = N.pos (Pos.of_uint_acc u p).
Proof.
  unfold digits_value. revert p.
  induction u; intros p; cbn [str_of_uint fold_left Pos.of_uint_acc];
    [reflexivity|..];
    match goal with
    | |- fold_left _ _ ?a = N.pos (Pos.of_uint_acc _ ?q) =>
        replace a with (N.pos q) by lia
    end; apply IHu.
Qed.

Lemma digits_value_zero (u : Decimal.uint) :
  digits_value 0 (str_of_uint u) = Pos.of_uint u.
Proof.
  induction u; simpl; [reflexivity|exact IHu|..];
    apply (digits_value_pos u).
Qed.

Lemma int_of_digits_str_of_N (n : N) : int_of_digits (str_of_N n) = n.
Proof.
  unfold int_of_digits, str_of_N.
  change (digits_value 0 (str_of_uint (N.to_uint n)) = n).
  rewrite digits_value_zero. apply (DecimalN.Unsigned.of_to n).
Qed.

Lemma int_of_digits_app (a b : str) :
  int_of_digits (a ++ b) = digits_value (int_of_digits a) b.
Proof. unfold int_of_digits, digits_value. apply fold_left_app. Qed.

Lemma span_digits_all (ds : str) :
  Forall (fun c => is_digit c = true) ds -> span_digits ds = (ds, []).
Proof.
  induction 1 as [|c ds Hc _ IH]; simpl; [reflexivity|].
  now rewrite Hc, IH.
Qed.

Lemma span_digits_stop (ds : str) (c : N) (rest : str) :
  Forall (fun c => is_digit c = true) ds -> is_digit c = false ->
  span_digits (ds ++ c :: rest) = (ds, c :: rest).
Proof.
  intros H Hc. induction H as [|x ds Hx _ IH]; simpl.
  - now rewrite Hc.
  - now rewrite Hx, IH.
Qed.

(** ** Formatting a Decimal and reading it back *)

Lemma two_digits_digits (n : N) :
  n < 100 -> Forall (fun c => is_digit c = true) (two_digits n).
Proof.
  intros H. unfold two_digits, is_digit.
  assert (n / 10 < 10) by (apply N.Div0.div_lt_upper_bound; lia).
  assert (n mod 10 < 10) by (apply N.mod_lt; lia).
  generalize dependent (n / 10). generalize dependent (n mod 10).
  intros r Hr q Hq.
  apply Forall_cons; [|apply Forall_cons; [|apply Forall_nil]];
    apply andb_true_iff; split; apply N.leb_le; lia.
Qed.

Lemma digits_value_two_digits (acc n : N) :
  digits_value acc (two_digits n) = 100 * acc + n.
Proof.
  unfold digits_value, two_digits. cbn [fold_left].
  pose proof (N.div_mod n 10) as E.
  generalize dependent (n / 10). generalize dependent (n mod 10).
  intros r q E. lia.
Qed.

Lemma take_sign_signed (s : bool) (c : N) (t : str) :
  is_digit c = true -> take_sign (sign_str s ++ c :: t) = (s, c :: t).
Proof.
  intros H. destruct s; [reflexivity|]. cbn [sign_str app take_sign].
  unfold is_digit in H. apply andb_true_iff in H as [Hlo Hhi].
  apply N.leb_le in Hlo. apply N.leb_le in Hhi.
  replace (c =? 45) with false by (symmetry; apply N.eqb_neq; lia).
  replace (c =? 43) with false by (symmetry; apply N.eqb_neq; lia).
  reflexivity.
Qed.

Lemma parse_number_fixed (sign : bool) (ip fp : str) :
  Forall (fun c => is_digit c = true) ip ->
  Forall (fun c => is_digit c = true) fp ->
  fp <> [] ->
  parse_number sign (ip ++ 46 :: fp)
  = Some (Finite sign (int_of_digits (ip ++ fp))
            (- Z.of_nat (List.length fp))).
Proof.
  intros Hip Hfp Hne. unfold parse_number.
  rewrite (span_digits_stop ip 46 fp Hip eq_refl).
  rewrite (span_digits_all fp Hfp).
  destruct (ip ++ fp) eqn:E.
  - apply app_eq_nil in E. tauto.
  - reflexivity.
Qed.

Lemma format_2f_plain (d : Decimal) :
  Forall (fun c => plain_char c = true) (format_2f d).
Proof.
  assert (D : forall n, Forall (fun c => plain_char c = true) (str_of_N n)).
  { intros n. eapply Forall_impl; [|apply str_of_N_digits].
    exact is_digit_plain. }
  assert (S : forall s, Forall (fun c => plain_char c = true) (sign_str s)).
  { intros [|]; repeat constructor. }
  destruct d as [s c e|s|s g n]; unfold format_2f;
    repeat (apply Forall_app; split); auto.
  - eapply Forall_impl; [exact is_digit_plain|].
    apply two_digits_digits. apply N.mod_lt. lia.
  - repeat constructor.
  - destruct g; repeat constructor.
  - destruct (n =? 0); [constructor|apply D].
Qed.

Lemma format_2f_clean (d : Decimal) :
  replace 95 [] (strip (format_2f d)) = format_2f d
  /\ replace pound [] (pound :: format_2f d) = format_2f d.
Proof.
  pose proof (format_2f_plain d) as H.
  assert (Hs : Forall (fun c => isspace c = false) (format_2f d)).
  { eapply Forall_impl; [|exact H]. intros c Hc.
    now apply plain_char_facts in Hc. }
  assert (Hu : Forall (fun c => (c =? 95) = false) (format_2f d)).
  { eapply Forall_impl; [|exact H]. intros c Hc.
    now apply plain_char_facts in Hc. }
  assert (Hp : Forall (fun c => (c =? pound) = false) (format_2f d)).
  { eapply Forall_impl; [|exact H]. intros c Hc.
    now apply plain_char_facts in Hc. }
  split.
  - rewrite (strip_id _ Hs). now apply replace_absent.
  - unfold replace. cbn [flat_map]. rewrite N.eqb_refl. cbn [app].
    now apply replace_absent.
Qed.


Lemma map_lower_digits (ds : str) :
  Forall (fun c => is_digit c = true) ds -> map lower ds = ds.
Proof.
  induction 1 as [|c ds Hc _ IH]; simpl; [reflexivity|].
  rewrite IH. f_equal. unfold lower, is_digit in *.
  apply andb_true_iff in Hc as [Hlo Hhi].
  apply N.leb_le in Hlo. apply N.leb_le in Hhi.
  replace (65 <=? c) with false by (symmetry; apply N.leb_gt; lia).
  reflexivity.
Qed.

(** Reading back a formatted [Decimal] gives the rescaled value. *)
Lemma Decimal_of_str_format_2f (d : Decimal) :
  Decimal_of_str (format_2f d) = Some (rescale d).
Proof.
  unfold Decimal_of_str. rewrite (proj1 (format_2f_clean d)).
  destruct d as [s c e|s|s g n].
  - cbn [format_2f rescale].
    set (c' := rescale2 c e).
    assert (Hr : c' mod 100 < 100) by (apply N.mod_lt; lia).
    pose proof (str_of_N_digits (c' / 100)) as Hq.
    pose proof (str_of_N_nonempty (c' / 100)) as Hne.
    destruct (str_of_N (c' / 100)) as [|h t] eqn:E; [congruence|].
    cbn [app]. rewrite take_sign_signed by (now inversion Hq).
    change (h :: t ++ 46 :: two_digits (c' mod 100))
      with ((h :: t) ++ 46 :: two_digits (c' mod 100)).
    rewrite parse_number_fixed;
      [|exact Hq|now apply two_digits_digits|discriminate].
    rewrite <- E, int_of_digits_app, int_of_digits_str_of_N.
    rewrite digits_value_two_digits.
    do 2 f_equal. pose proof (N.div_mod c' 100) as D.
    generalize dependent (c' / 100). generalize dependent (c' mod 100).
    intros; lia.
  - destruct s; reflexivity.
  - cbn [format_2f rescale].
    assert (T : take_sign (sign_str s ++ (if g then py "sNaN" else py "NaN")
                             ++ (if n =? 0 then [] else str_of_N n))
                = (s, (if g then py "sNaN" else py "NaN")
                        ++ (if n =? 0 then [] else str_of_N n))).
    { destruct s, g; reflexivity. }
    rewrite T. clear T.
    set (ds := if n =? 0 then [] else str_of_N n).
    assert (Hds : Forall (fun c => is_digit c = true) ds).
    { unfold ds. destruct (n =? 0); [constructor|apply str_of_N_digits]. }
    assert (Hv : int_of_digits ds = n).
    { unfold ds. destruct (n =? 0) eqn:E.
      - apply N.eqb_eq in E. now subst.
      - apply int_of_digits_str_of_N. }
    assert (P : parse_number s ((if g then py "sNaN" else py "NaN") ++ ds)
                = None) by (destruct g; reflexivity).
    rewrite P. unfold parse_special.
    rewrite map_app, (map_lower_digits ds Hds).
    destruct g; cbn [py map list_ascii_of_string N_of_ascii app];
      cbn; rewrite (span_digits_all ds Hds), Hv; reflexivity.
Qed.


Lemma rescale2_exact (c : N) (e : Z) :
  (-2 <= e)%Z -> rescale2 c e = c * pow10 (e + 2).
Proof.
  intros H. unfold rescale2. destruct (c =? 0) eqn:E.
  - apply N.eqb_eq in E. now subst.
  - apply Z.leb_le in H. now rewrite H.
Qed.


(** ** Validation *)

Lemma field_errors_nil (name : string) (errs : list FieldError) :
  field_errors name errs = [] <-> errs = [].
Proof. destruct errs; simpl; split; congruence. Qed.

Lemma validate_required_nil (data : option str) :
  validate_required data = [] <->
  exists v, data = Some v /\ strip v <> [].
Proof.
  unfold validate_required, DataRequired. split.
  - destruct data as [v|]; [|discriminate].
    destruct (strip v) eqn:E; [discriminate|].
    intros _. exists v. split; [reflexivity|]. rewrite E. discriminate.
  - intros (v & -> & Hv). destruct (strip v); [congruence|reflexivity].
Qed.

Lemma validate_password_nil (data : option str) :
  validate_password data = [] <->
  exists v, data = Some v /\ strip v <> [] /\ 8 <= len v.
Proof.
  unfold validate_password, DataRequired. split.
  - destruct data as [v|]; [|discriminate].
    destruct (strip v) eqn:E; [discriminate|].
    destruct (8 <=? len v) eqn:L; [|discriminate].
    intros _. exists v. apply N.leb_le in L.
    repeat split; [rewrite E; discriminate|exact L].
  - intros (v & -> & Hv & L). apply N.leb_le in L.
    destruct (strip v); [congruence|]. now rewrite L.
Qed.

Lemma validate_seats_nil (data : option str) :
  AddCafeForm.validate_seats data = [] <->
  exists v, data = Some v /\ In v AddCafeForm.seat_choices.
Proof.
  unfold AddCafeForm.validate_seats. split.
  - destruct data as [v|]; [|discriminate].
    destruct (existsb (str_eqb v) AddCafeForm.seat_choices) eqn:E;
      [|discriminate].
    intros _. exists v. split; [reflexivity|].
    apply existsb_exists in E as (x & Hx & Hvx).
    apply str_eqb_eq in Hvx. now subst.
  - intros (v & -> & Hin).
    replace (existsb (str_eqb v) AddCafeForm.seat_choices) with true;
      [reflexivity|].
    symmetry. apply existsb_exists. exists v. split; [exact Hin|].
    apply str_eqb_refl.
Qed.

Lemma validate_coffee_price_nil (data : option Decimal) :
  validate_coffee_price data = Ok [] <->
  exists d, data = Some d /\ Decimal_bool d = true /\ Decimal_ge0 d = true.
Proof.
  unfold validate_coffee_price. split.
  - destruct data as [d|]; [|discriminate].
    destruct (Decimal_bool d) eqn:B; [|discriminate].
    destruct d as [s c e|s|s [|] n]; simpl; try discriminate;
      match goal with
      | |- context [if ?b then _ else _] => destruct b eqn:G
      end; try discriminate; intros _; eexists; repeat split; eauto.
  - intros (d & -> & B & G). rewrite B.
    destruct d as [s c e|s|s g n]; simpl in *; try discriminate;
      now rewrite G.
Qed.

Lemma AddCafeForm_validate_nil (f : AddCafeForm.t) :
  AddCafeForm.validate f = Ok [] <->
  validate_required (AddCafeForm.name f) = []
  /\ validate_required (AddCafeForm.map_url f) = []
  /\ validate_required (AddCafeForm.img_url f) = []
  /\ validate_required (AddCafeForm.location f) = []
  /\ AddCafeForm.validate_seats (AddCafeForm.seats f) = []
  /\ validate_coffee_price (AddCafeForm.coffee_price f) = Ok [].
Proof.
  unfold AddCafeForm.validate. split.
  - destruct (validate_coffee_price (AddCafeForm.coffee_price f))
      as [pe|e]; simpl; [|discriminate].
    intros H. injection H as H.
    repeat (apply app_eq_nil in H as [?%field_errors_nil H]).
    apply field_errors_nil in H. subst. tauto.
  - intros (-> & -> & -> & -> & -> & ->). reflexivity.
Qed.

(** ** Sessions and the guard *)

Lemma current_user_world (w w' : World) (a : Actor) :
  current_user w = Return a w' -> w' = w.
Proof.
  unfold current_user, load_user, bind, get_db, lift, ret.
  destruct (session w); [|congruence].
  destruct (select_user_by_id_one n (db w)); congruence.
Qed.

Lemma current_user_anonymous (w : World) :
  session w = None -> current_user w = Return Anonymous w.
Proof. unfold current_user. now intros ->. Qed.

Lemma current_user_authenticated (w : World) (k : N) (u : User.t) :
  session w = Some k ->
  filter (has_user_id k) (users (db w)) = [u] ->
  current_user w = Return (Authenticated u) w.
Proof.
  unfold current_user, load_user, bind, get_db, lift, ret,
    select_user_by_id_one.
  now intros -> ->.
Qed.

(** [current_user] reads the session and the user table only. *)
Lemma current_user_frame (w w' : World) (u : User.t) :
  session w' = session w -> users (db w') = users (db w) ->
  current_user w = Return (Authenticated u) w ->
  current_user w' = Return (Authenticated u) w'.
Proof.
  unfold current_user, load_user, bind, get_db, lift, ret,
    select_user_by_id_one.
  intros -> ->. destruct (session w); [|congruence].
  destruct (filter (has_user_id n) (users (db w))) as [|x [|y l]];
    congruence.
Qed.

Lemma login_required_authenticated
  (view : Request -> M Response) (req : Request) (w : World) (u : User.t) :
  current_user w = Return (Authenticated u) w ->
  login_required view req w = view req w.
Proof. unfold login_required, bind. now intros ->. Qed.

Lemma login_required_anonymous
  (view : Request -> M Response) (req : Request) (w : World) :
  session w = None ->
  login_required view req w
  = Return (redirect (url_for (Elogin (Some (url req)))))
      (flashed w "Please log in to access this page." "message").
Proof.
  intros H. unfold login_required, bind.
  now rewrite (current_user_anonymous w H).
Qed.

Lemma login_required_inv
  (view : Request -> M Response) (req : Request) (w w' : World)
  (resp : Response) :
  login_required view req w = Return resp w' ->
  (exists u, current_user w = Return (Authenticated u) w
             /\ view req w = Return resp w')
  \/ db w' = db w.
Proof.
  unfold login_required, bind.
  destruct (current_user w) as [a w0|e w0] eqn:E; [|discriminate].
  pose proof (current_user_world _ _ _ E); subst w0.
  destruct a as [|u].
  - unfold unauthorized, bind, flash, ret. intros H. injection H as _ <-.
    now right.
  - intros H. left. now exists u.
Qed.

(** ** Rendering a page *)

Lemma current_user_raised (w w' : World) (e : Exn) :
  current_user w = Raised e w' -> w' = w.
Proof.
  unfold current_user, load_user, bind, get_db, lift, ret.
  destruct (session w); [|discriminate].
  destruct (select_user_by_id_one n (db w)); congruence.
Qed.

(** [current_user] reads the session and the user table only. *)
Lemma session_resolves_frame (w w' : World) :
  session w' = session w -> users (db w') = users (db w) ->
  session_resolves w -> session_resolves w'.
Proof.
  unfold session_resolves, current_user, load_user, bind, get_db, lift, ret,
    select_user_by_id_one.
  intros -> -> (actor & H). destruct (session w); [|eauto].
  destruct (filter (has_user_id n) (users (db w))) as [|x [|y l]];
    try discriminate; eauto.
Qed.

Lemma authenticated_resolves (w : World) (u : User.t) :
  current_user w = Return (Authenticated u) w -> session_resolves w.
Proof. intros H. now exists (Authenticated u). Qed.

(** Rendering a template returns the page when the session resolves, and
    leaves the world as it was whether it returns or raises. *)
Lemma render_resolved (p : Page) (w : World) :
  session_resolves w -> render p w = Return (render_template p) w.
Proof. intros (actor & H). unfold render, bind, ret. now rewrite H. Qed.

Lemma render_world (p : Page) (w : World) : outcome_world (render p w) = w.
Proof.
  unfold render, bind, ret.
  destruct (current_user w) as [a w0|e w0] eqn:E; cbn.
  - now apply current_user_world in E.
  - now apply current_user_raised in E.
Qed.

Lemma render_inv (p : Page) (w w' : World) (resp : Response) :
  render p w = Return resp w' -> w' = w /\ resp = render_template p.
Proof.
  unfold render, bind, ret.
  destruct (current_user w) as [a w0|e w0] eqn:E; [|discriminate].
  apply current_user_world in E. subst w0. intros H. now injection H as <- <-.
Qed.

(** ** Adding a cafe *)

Lemma Decimal_format_ok (capacity : N) (d : Decimal) (text : str) :
  Decimal_format capacity d = Ok text -> text = format_2f d.
Proof.
  unfold Decimal_format.
  destruct (_ <? _)%Z; [discriminate|].
  destruct (_ <? _)%Z; [discriminate|]. congruence.
Qed.

(** The object that [populate_obj] fills from a form has the price of the
    form, formatted. *)
Lemma populate_obj_price
  (capacity : N) (f : AddCafeForm.t) (obj cafe : Cafe.t) :
  AddCafeForm.populate_obj capacity f obj = Ok cafe ->
  exists d, AddCafeForm.coffee_price f = Some d
            /\ Decimal_format capacity d = Ok (format_2f d)
            /\ cafe = Cafe.mk (Cafe.id obj) (AddCafeForm.name f)
                        (AddCafeForm.map_url f) (AddCafeForm.img_url f)
                        (AddCafeForm.location f) (AddCafeForm.has_sockets f)
                        (AddCafeForm.has_toilet f) (AddCafeForm.has_wifi f)
                        (AddCafeForm.can_take_calls f) (AddCafeForm.seats f)
                        (Some (pound :: format_2f d)).
Proof.
  unfold AddCafeForm.populate_obj.
  destruct (AddCafeForm.coffee_price f) as [d|]; [|discriminate].
  destruct (Decimal_format capacity d) as [text|e] eqn:F; [|discriminate].
  pose proof (Decimal_format_ok _ _ _ F). subst text.
  cbn. intros H. injection H as <-. now exists d.
Qed.

Lemma populate_obj_formatted
  (capacity : N) (f : AddCafeForm.t) (obj : Cafe.t) (d : Decimal) (text : str) :
  AddCafeForm.coffee_price f = Some d ->
  Decimal_format capacity d = Ok text ->
  AddCafeForm.populate_obj capacity f obj
  = Ok (Cafe.mk (Cafe.id obj) (AddCafeForm.name f)
          (AddCafeForm.map_url f) (AddCafeForm.img_url f)
          (AddCafeForm.location f) (AddCafeForm.has_sockets f)
          (AddCafeForm.has_toilet f) (AddCafeForm.has_wifi f)
          (AddCafeForm.can_take_calls f) (AddCafeForm.seats f)
          (Some (pound :: format_2f d))).
Proof.
  intros Hp F. unfold AddCafeForm.populate_obj. rewrite Hp, F.
  now rewrite (Decimal_format_ok _ _ _ F).
Qed.

Lemma add_cafe_view_inv (req : Request) (w w' : World) (resp : Response) :
  add_cafe_view req w = Return resp w' ->
  db w' = db w
  \/ exists cafe row d,
       is_submitted req = true
       /\ AddCafeForm.validate (AddCafeForm.make (formdata req)) = Ok []
       /\ AddCafeForm.populate_obj (capacity req)
            (AddCafeForm.make (formdata req)) Cafe.new
          = Ok cafe
       /\ insert_cafe cafe (db w) = Ok (row, d)
       /\ w' = mkWorld d (session w) (flashes w)
       /\ resp = redirect (url_for (Eshow_cafe (Cafe.id row))).
Proof.
  unfold add_cafe_view, bind, lift, ret, get_db, put_db.
  destruct (is_submitted req) eqn:S.
  - destruct (AddCafeForm.validate (AddCafeForm.make (formdata req)))
      as [errs|e]; [|discriminate].
    destruct errs as [|x errs]; cbn [andb no_errors].
    + destruct (AddCafeForm.populate_obj _ _ Cafe.new) as [cafe|e];
        [|discriminate].
      destruct (insert_cafe cafe (db w)) as [[row d]|e] eqn:I;
        [|discriminate].
      cbn. intros H. injection H as <- <-. right.
      exists cafe, row, d. repeat split; try reflexivity; exact I.
    + intros H. apply render_inv in H as [-> _]. now left.
  - cbn. intros H. apply render_inv in H as [-> _]. now left.
Qed.





(** ** The cafe table *)

Lemma next_id_bound (ids : list (option N)) (k : N) :
  In (Some k) ids -> k < next_id ids.
Proof.
  unfold next_id. induction ids as [|i ids IH]; cbn [fold_right In];
    [tauto|].
  intros [->|H].
  - lia.
  - specialize (IH H). destruct i; lia.
Qed.


Lemma find_last {A} (f : A -> bool) (l : list A) (y : A) :
  (forall x, In x l -> f x = false) -> f y = true ->
  find f (l ++ [y]) = Some y.
Proof.
  intros H Hy. induction l as [|x l IH]; simpl.
  - now rewrite Hy.
  - rewrite (H x) by now left. apply IH. intros z Hz. apply H. now right.
Qed.

Lemma filter_none {A} (f : A -> bool) (l : list A) :
  existsb f l = false -> filter f l = [].
Proof.
  induction l as [|x l IH]; simpl; [reflexivity|].
  intros H. apply orb_false_iff in H as [Hx Hl]. rewrite Hx. now apply IH.
Qed.

Lemma BooleanField_data_some (name : string) (fd : FormData) :
  is_some (BooleanField_data name fd) = true.
Proof. unfold BooleanField_data. now destruct (getlist name fd). Qed.

(** What [add_cafe] does with a submission that validates: the populated
    object is inserted; the view raises when the insertion does. *)

(** A form that validates has a price that is true and at least [0], and
    populates, when the price can be formatted, an object that has no NULL
    in a [NOT NULL] column. *)
Lemma valid_form_populates (fd : FormData) :
  AddCafeForm.validate (AddCafeForm.make fd) = Ok [] ->
  exists price,
    DecimalField_data "coffee_price" fd = Some price
    /\ Decimal_bool price = true /\ Decimal_ge0 price = true
    /\ (forall id, cafe_not_null (submitted_cafe id fd price) = true)
    /\ (forall capacity obj,
          AddCafeForm.populate_obj capacity (AddCafeForm.make fd) obj
          = match Decimal_format capacity price with
            | Ok _ => Ok (submitted_cafe (Cafe.id obj) fd price)
            | Raise e => Raise e
            end).
Proof.
  intros V.
  pose proof (proj1 (AddCafeForm_validate_nil _) V)
    as (Hn & Hm & Hi & Hl & _ & Hp).
  apply validate_coffee_price_nil in Hp as (price & Hp & B & G).
  apply validate_required_nil in Hn as (n & Hn & _).
  apply validate_required_nil in Hm as (m & Hm & _).
  apply validate_required_nil in Hi as (i & Hi & _).
  apply validate_required_nil in Hl as (l & Hl & _).
  cbn in Hp, Hn, Hm, Hi, Hl.
  exists price. split; [exact Hp|]. split; [exact B|]. split; [exact G|].
  split.
  - intros id. unfold cafe_not_null, submitted_cafe. cbn.
    rewrite Hn, Hm, Hi, Hl. cbn [is_some andb].
    now rewrite !BooleanField_data_some.
  - intros capacity obj. unfold AddCafeForm.populate_obj. cbn. rewrite Hp.
    destruct (Decimal_format capacity price) as [text|e] eqn:F;
      [|reflexivity].
    now rewrite (Decimal_format_ok _ _ _ F).
Qed.

Lemma add_cafe_view_valid (req : Request) (w : World) :
  is_submitted req = true ->
  AddCafeForm.validate (AddCafeForm.make (formdata req)) = Ok [] ->
  exists price,
    DecimalField_data "coffee_price" (formdata req) = Some price
    /\ Decimal_bool price = true /\ Decimal_ge0 price = true
    /\ add_cafe_view req w
       = match Decimal_format (capacity req) price with
         | Raise e => Raised e w
         | Ok _ =>
             match insert_cafe (submitted_cafe None (formdata req) price)
                     (db w) with
             | Ok (row, d) =>
                 Return (redirect (url_for (Eshow_cafe (Cafe.id row))))
                   (mkWorld d (session w) (flashes w))
             | Raise e => Raised e w
             end
         end.
Proof.
  intros S V.
  destruct (valid_form_populates _ V) as (price & Hp & B & G & _ & Hpop).
  exists price. split; [exact Hp|]. split; [exact B|]. split; [exact G|].
  unfold add_cafe_view, bind, lift, ret, get_db, put_db.
  rewrite S, V. cbn [andb no_errors]. rewrite Hpop.
  destruct (Decimal_format (capacity req) price); [|reflexivity].
  cbn [Cafe.new Cafe.id].
  destruct (insert_cafe _ (db w)) as [[row d]|e]; reflexivity.
Qed.

(** X16.  A valid submission with a finite price and a name that no cafe
    has yet: the cafe is created, the detail view shows it with the submitted
    values, and its price is the currency symbol followed by the price
    rounded to exactly two decimals. *)



Lemma populate_obj_name
  (capacity : N) (f : AddCafeForm.t) (obj cafe : Cafe.t) :
  AddCafeForm.populate_obj capacity f obj = Ok cafe ->
  Cafe.name cafe = AddCafeForm.name f.
Proof.
  intros H. apply populate_obj_price in H as (d & _ & _ & ->). reflexivity.
Qed.

Lemma opt_str_eqb_refl (n : option str) : opt_eqb str_eqb n n = true.
Proof. destruct n; simpl; [apply str_eqb_refl|reflexivity]. Qed.


(** C6, at a price that is not a number of pounds.  The submission of the
    price [Infinity] is valid: [Decimal('Infinity')] is true, is not a NaN
    and is at least [0].  The cafe is created and its stored price is the
    currency symbol followed by [Infinity], which is not a text with
    exactly two decimals. *)
Theorem add_cafe_infinite_price :
  AddCafeForm.validate
    (AddCafeForm.make (cafe_submission "Flat White" "Infinity")) = Ok []
  /\ exists row w',
       add_cafe (post "/cafe/add" (cafe_submission "Flat White" "Infinity"))
         alice_world
       = Return (redirect (url_for (Eshow_cafe (Some 1)))) w'
       /\ show_cafe 1 (post "/cafe/1" []) w'
          = Return (render_template (cafe_html row)) w'
       /\ Cafe.coffee_price row = Some (pound :: py "Infinity")
       /\ currency_two_decimals (Cafe.coffee_price row) = false.
Proof.
  split; [vm_compute; reflexivity|].
  eexists. eexists. split; [vm_compute; reflexivity|].
  split; [vm_compute; reflexivity|].
  split; vm_compute; reflexivity.
Qed.

(** C3, as the code has it.  When a submission created a cafe, a second
    valid submission with the same name makes [add_cafe] raise
    [IntegrityError]: nothing is flashed and no page of the view is
    rendered, the world is as it was, and the table has exactly one cafe
    with that name. *)

(** C3, as the code has it.  After [add_cafe] has created a cafe, a second
    valid submission with the same name does not return: [add_cafe] raises,
    and the view catches nothing.  When the process can format the second
    price, what is raised is the [IntegrityError] of the commit.  The table
    keeps exactly one cafe of that name. *)
Theorem duplicate_cafe_name_raises
  (req1 req2 : Request) (w w1 : World) (resp1 : Response) :
  add_cafe req1 w = Return resp1 w1 ->
  db w1 <> db w ->
  method req2 = POST ->
  AddCafeForm.validate (AddCafeForm.make (form req2)) = Ok [] ->
  StringField_data "name" (form req2) = StringField_data "name" (form req1) ->
  (exists e, add_cafe req2 w1 = Raised e w1)
  /\ (forall price,
        DecimalField_data "coffee_price" (form req2) = Some price ->
        Decimal_format (capacity req2) price = Ok (format_2f price) ->
        add_cafe req2 w1 = Raised IntegrityError w1)
  /\ List.length
       (filter (has_cafe_name (StringField_data "name" (form req1)))
          (cafes (db w1))) = 1%nat.
Proof.
  intros Hrun Hne Hm V Hname.
  apply login_required_inv in Hrun as [(u & Hu & Hview)|E]; [|contradiction].
  apply add_cafe_view_inv in Hview
    as [E|(cafe & row & d & S1 & _ & Hpop & Hins & -> & _)]; [contradiction|].
  assert (F1 : formdata req1 = form req1) by (unfold formdata; now rewrite S1).
  rewrite F1 in Hpop. apply populate_obj_name in Hpop. cbn in Hpop.
  unfold insert_cafe in Hins.
  destruct (cafe_not_null cafe); [|discriminate].
  destruct (existsb (has_cafe_name (Cafe.name cafe)) (cafes (db w))) eqn:Ex;
    [discriminate|].
  cbn [andb negb] in Hins. injection Hins as <- <-. clear Hne.
  set (row := with_cafe_id (next_id (map Cafe.id (cafes (db w)))) cafe).
  cbn [db cafes].
  assert (Hrow : has_cafe_name (Cafe.name cafe) row = true)
    by apply opt_str_eqb_refl.
  set (w1 := mkWorld (mkDB (cafes (db w) ++ [row]) (users (db w)))
               (session w) (flashes w)).
  assert (S2 : is_submitted req2 = true)
    by (unfold is_submitted; now rewrite Hm).
  assert (F2 : formdata req2 = form req2)
    by (unfold formdata; now rewrite S2).
  assert (Hrun2 : forall price,
             DecimalField_data "coffee_price" (form req2) = Some price ->
             add_cafe req2 w1
             = match Decimal_format (capacity req2) price with
               | Ok _ => Raised IntegrityError w1
               | Raise e => Raised e w1
               end).
  { intros price Hprice. unfold add_cafe.
    erewrite login_required_authenticated;
      [|apply (current_user_frame w); [reflexivity|reflexivity|exact Hu]].
    rewrite <- F2 in V.
    destruct (add_cafe_view_valid req2 w1 S2 V) as (p & Hp & _ & _ & ->).
    rewrite F2 in *. rewrite Hprice in Hp. injection Hp as <-.
    destruct (Decimal_format (capacity req2) price); [|reflexivity].
    destruct (valid_form_populates _ V) as (p & Hp & _ & _ & Hnn & _).
    rewrite Hprice in Hp. injection Hp as <-.
    unfold insert_cafe. rewrite Hnn.
    unfold submitted_cafe at 1. cbn [Cafe.name].
    rewrite Hname, <- Hpop. unfold w1. cbn [db cafes].
    rewrite existsb_app. cbn [existsb]. rewrite Hrow, orb_true_r.
    reflexivity. }
  split; [|split].
  - destruct (valid_form_populates _ V) as (p & Hp & _).
    rewrite (Hrun2 p Hp).
    destruct (Decimal_format (capacity req2) p); eauto.
  - intros price Hprice Hfmt. rewrite (Hrun2 price Hprice), Hfmt.
    reflexivity.
  - rewrite <- Hpop, filter_app, (filter_none _ _ Ex). cbn [filter].
    now rewrite Hrow.
Qed.

Lemma duplicate_cafe_name_raises_witness :
  add_cafe (post "/cafe/add" (cafe_submission "Flat White" "3")) flat_white_world
  = Raised IntegrityError flat_white_world
  /\ List.length
       (filter (has_cafe_name (Some (py "Flat White")))
          (cafes (db flat_white_world))) = 1%nat.
Proof.
  destruct (duplicate_cafe_name_raises
              (post "/cafe/add" (cafe_submission "Flat White" "2.5"))
              (post "/cafe/add" (cafe_submission "Flat White" "3"))
              alice_world flat_white_world
              (redirect (url_for (Eshow_cafe (Some 1)))))
    as (_ & Hraise & Hcount).
  - vm_compute; reflexivity.
  - vm_compute; discriminate.
  - reflexivity.
  - vm_compute; reflexivity.
  - vm_compute; reflexivity.
  - split; [|exact Hcount].
    apply (Hraise (Finite false 3 0)); vm_compute; reflexivity.
Defined.

(** C5, as the code has it.  When the session carries a user id that no
    row of the user table has, [load_user] raises [NoResultFound], and so
    do [current_user] and every view behind [login_required]. *)
Theorem current_user_stale_session
  (view : Request -> M Response) (req : Request) (w : World) (k : N) :
  session w = Some k ->
  existsb (has_user_id k) (users (db w)) = false ->
  load_user k w = Raised NoResultFound w
  /\ current_user w = Raised NoResultFound w
  /\ login_required view req w = Raised NoResultFound w.
Proof.
  intros Hs Hk.
  assert (L : load_user k w = Raised NoResultFound w).
  { unfold load_user, bind, get_db, lift, select_user_by_id_one.
    now rewrite (filter_none _ _ Hk). }
  assert (C : current_user w = Raised NoResultFound w).
  { unfold current_user. rewrite Hs. unfold bind. now rewrite L. }
  repeat split; [exact L|exact C|].
  unfold login_required, bind. now rewrite C.
Qed.

Lemma current_user_stale_session_witness :
  load_user 7 stale_world = Raised NoResultFound stale_world
  /\ current_user stale_world = Raised NoResultFound stale_world
  /\ login_required index (post "/cafe/add" []) stale_world
     = Raised NoResultFound stale_world.
Proof.
  apply (current_user_stale_session index (post "/cafe/add" []) stale_world 7).
  - reflexivity.
  - vm_compute; reflexivity.
Defined.

(** ** Looking rows up *)

Lemma opt_str_eqb_eq (a b : option str) : opt_eqb str_eqb a b = true <-> a = b.
Proof.
  destruct a as [x|], b as [y|]; simpl; try (split; congruence).
  rewrite str_eqb_eq. split; congruence.
Qed.

Lemma opt_N_eqb_eq (a b : option N) : opt_eqb N.eqb a b = true <-> a = b.
Proof.
  destruct a as [x|], b as [y|]; simpl; try (split; congruence).
  rewrite N.eqb_eq. split; congruence.
Qed.

Lemma find_exists {A} (p : A -> bool) (l : list A) (x : A) :
  In x l -> p x = true -> exists y, find p l = Some y.
Proof.
  induction l as [|z l IH]; simpl; [tauto|].
  intros [->|H] Hp.
  - rewrite Hp. eauto.
  - destruct (p z); eauto.
Qed.

Section UniqueRows.
Context {A B : Type} (f : A -> B) (p : A -> bool) (u : A).
Hypothesis p_spec : forall x, p x = true <-> f x = f u.

Lemma filter_absent (l : list A) : ~ In (f u) (map f l) -> filter p l = [].
Proof.
  induction l as [|x l IH]; simpl; [reflexivity|].
  intros H. destruct (p x) eqn:E.
  - apply p_spec in E. tauto.
  - apply IH. tauto.
Qed.

Lemma filter_unique (l : list A) :
  unique_on f l -> In u l -> filter p l = [u].
Proof.
  unfold unique_on. induction l as [|x l IH]; simpl; [tauto|].
  intros N [->|H]; inversion N as [|? ? Hx Hl]; subst.
  - rewrite (proj2 (p_spec u) eq_refl). f_equal. now apply filter_absent.
  - destruct (p x) eqn:E.
    + apply p_spec in E. rewrite E in Hx. exfalso. apply Hx.
      now apply in_map.
    + now apply IH.
Qed.

Lemma find_unique (l : list A) :
  unique_on f l -> In u l -> find p l = Some u.
Proof.
  unfold unique_on. induction l as [|x l IH]; simpl; [tauto|].
  intros N [->|H]; inversion N as [|? ? Hx Hl]; subst.
  - now rewrite (proj2 (p_spec u) eq_refl).
  - destruct (p x) eqn:E.
    + apply p_spec in E. rewrite E in Hx. exfalso. apply Hx.
      now apply in_map.
    + now apply IH.
Qed.
End UniqueRows.

Lemma find_filtered_out {A} (p : A -> bool) (l : list A) :
  find p (filter (fun x => negb (p x)) l) = None.
Proof.
  induction l as [|x l IH]; simpl; [reflexivity|].
  destruct (p x) eqn:E; simpl; [exact IH|]. now rewrite E.
Qed.

(** ** The unique columns stay unique *)

Lemma NoDup_snoc {A} (l : list A) (x : A) :
  NoDup l -> ~ In x l -> NoDup (l ++ [x]).
Proof.
  induction 1 as [|y l Hy Hl IH]; simpl; intros Hx.
  - constructor; [tauto|constructor].
  - constructor.
    + rewrite in_app_iff. simpl. intros [H|[H|[]]]; [tauto|].
      subst. tauto.
    + apply IH. tauto.
Qed.

(** An insertion into the user table keeps the emails and the ids
    unique: the constraints that [login] and [load_user] rely on. *)
Lemma insert_user_unique (u row : User.t) (d d' : DB) :
  insert_user u d = Ok (row, d') ->
  unique_on User.email (users d) -> unique_on User.id (users d) ->
  unique_on User.email (users d') /\ unique_on User.id (users d').
Proof.
  unfold insert_user, unique_on. intros H Ue Ui.
  destruct (user_not_null u); [|discriminate].
  destruct (existsb (has_email (User.email u)) (users d)) eqn:Ex;
    [discriminate|].
  cbn [andb negb] in H. injection H as <- <-. cbn [users].
  rewrite !map_app. cbn [map with_user_id User.email User.id]. split.
  - apply NoDup_snoc; [exact Ue|].
    intros Hin. apply in_map_iff in Hin as (x & Hx & Hin).
    assert (existsb (has_email (User.email u)) (users d) = true);
      [|congruence].
    apply existsb_exists. exists x. split; [exact Hin|].
    unfold has_email. rewrite Hx. apply opt_str_eqb_refl.
  - apply NoDup_snoc; [exact Ui|].
    intros Hin. apply next_id_bound in Hin. lia.
Qed.

(** ** Signup and login *)

Section Accounts.
Variable generate_password_hash : str -> str -> str.
Variable check_password_hash : str -> str -> bool.

(** C2, as the code has it.  A login submission that validates and whose
    email no user has flashes the message for the unknown email and then
    the message for the wrong password as well: both messages, not only
    the first.  The login page is then rendered, which returns when the
    session resolves. *)
Theorem login_unknown_email_flashes_both (req : Request) (w : World) :
  session_resolves w ->
  method req = POST ->
  LoginForm.validate (LoginForm.make (form req)) = [] ->
  select_user_by_email (StringField_data "email" (form req)) (db w) = None ->
  login check_password_hash req w
  = Return (login_page req [])
      (mkWorld (db w) (session w)
         (flashes w ++ [("User with this email does not exist", "danger");
                        ("Password is incorrect", "danger")]%string)).
Proof.
  intros Hr Hm V Hnone.
  unfold login, login_page, formdata, is_submitted. rewrite Hm, V.
  cbn [andb no_errors]. unfold bind, get_db, ret, flash.
  cbn [LoginForm.make LoginForm.email]. rewrite Hnone.
  cbn [db session flashes]. rewrite <- app_assoc. cbn [app].
  apply render_resolved.
  apply (session_resolves_frame w); [reflexivity|reflexivity|exact Hr].
Qed.

(** C7.  A signup submission with the email of an existing user changes
    neither the database nor the session, whether [signup] returns or
    raises.  When the submission validates, the answer is the warning that
    the email is taken and a redirect to the signup form.  When it does
    not, the form is rendered again with its errors, which returns when
    the session resolves. *)
Theorem signup_existing_email
  (req : Request) (w : World) (u : User.t) (e : str) :
  In u (users (db w)) ->
  User.email u = Some e ->
  method req = POST ->
  StringField_data "email" (form req) = Some e ->
  db (outcome_world (signup generate_password_hash req w)) = db w
  /\ session (outcome_world (signup generate_password_hash req w))
     = session w
  /\ (SignupForm.validate (SignupForm.make (form req)) = [] ->
      signup generate_password_hash req w
      = Return (redirect (url_for Esignup))
          (flashed w "User with this email already exists" "danger"))
  /\ (SignupForm.validate (SignupForm.make (form req)) <> [] ->
      session_resolves w ->
      signup generate_password_hash req w
      = Return
          (signup_page req (SignupForm.validate (SignupForm.make (form req))))
          w).
Proof.
  intros Hin He Hm Hemail.
  destruct (find_exists (has_email (Some e)) (users (db w)) u Hin)
    as (v & Hv).
  { unfold has_email. rewrite He. apply opt_str_eqb_refl. }
  unfold signup, signup_page, formdata, is_submitted. rewrite Hm.
  destruct (SignupForm.validate (SignupForm.make (form req))) as [|x errs];
    cbn [andb no_errors].
  - unfold bind, get_db, ret, flash, select_user_by_email.
    cbn [SignupForm.make SignupForm.email]. rewrite Hemail, Hv.
    cbn. repeat split; congruence.
  - rewrite render_world. split; [reflexivity|]. split; [reflexivity|].
    split; [congruence|]. intros _ Hr. now apply render_resolved.
Qed.

(** C8.  For a stored user, in a database whose emails and ids are unique:
    a login submission with the user's email and a password that does not
    match leaves the session and the database as they were, whether
    [login] returns or raises; the login form is rendered again, which
    returns when the session resolves, and when the submission validates
    the message is that the password is incorrect.  A submission that
    validates with the password that matches is answered by a redirect
    and leaves a session whose current user is that user. *)
Theorem login_checks_password
  (req : Request) (w : World) (u : User.t) (e h p : str) (k : N) :
  unique_on User.email (users (db w)) ->
  unique_on User.id (users (db w)) ->
  In u (users (db w)) ->
  User.email u = Some e ->
  User.password_hash u = Some h ->
  User.id u = Some k ->
  method req = POST ->
  StringField_data "email" (form req) = Some e ->
  StringField_data "password" (form req) = Some p ->
  (check_password_hash h p = false ->
   let errors := LoginForm.validate (LoginForm.make (form req)) in
   session (outcome_world (login check_password_hash req w)) = session w
   /\ db (outcome_world (login check_password_hash req w)) = db w
   /\ (session_resolves w ->
       login check_password_hash req w
       = Return (login_page req errors)
           (mkWorld (db w) (session w)
              (flashes w ++ if no_errors errors
                            then [("Password is incorrect", "danger")]%string
                            else []))))
  /\ (check_password_hash h p = true ->
      LoginForm.validate (LoginForm.make (form req)) = [] ->
      login check_password_hash req w
      = Return (match args_next req with
                | Some _ => redirect (Url (args_next req))
                | None => redirect (url_for Eindex)
                end)
          (logged_in w (Some k))
      /\ current_user (logged_in w (Some k))
         = Return (Authenticated u) (logged_in w (Some k))).
Proof.
  intros Ue Ui Hin He Hh Hk Hm Hemail Hpw.
  assert (Hfind : select_user_by_email (Some e) (db w) = Some u).
  { apply (find_unique User.email); [|exact Ue|exact Hin].
    intros x. unfold has_email. rewrite He. apply opt_str_eqb_eq. }
  split.
  - intros Hc. cbn zeta.
    unfold login, login_page, formdata, is_submitted. rewrite Hm.
    destruct (LoginForm.validate (LoginForm.make (form req))) as [|x errs];
      cbn [andb no_errors].
    + unfold bind, get_db, ret, flash, lift, check_password.
      cbn [LoginForm.make LoginForm.email LoginForm.password].
      rewrite Hemail, Hpw, Hfind, Hh, Hc. cbn [db session flashes].
      rewrite render_world. split; [reflexivity|]. split; [reflexivity|].
      intros Hr. apply render_resolved.
      apply (session_resolves_frame w); [reflexivity|reflexivity|exact Hr].
    + rewrite render_world. split; [reflexivity|]. split; [reflexivity|].
      intros Hr. rewrite app_nil_r.
      replace (mkWorld (db w) (session w) (flashes w)) with w
        by now destruct w.
      now apply render_resolved.
  - intros Hc V. split.
    + unfold login, formdata, is_submitted. rewrite Hm, V.
      cbn [andb no_errors].
      unfold bind, get_db, ret, flash, lift, check_password, login_user.
      cbn [LoginForm.make LoginForm.email LoginForm.password].
      rewrite Hemail, Hpw, Hfind, Hh, Hc, Hk.
      destruct (args_next req); reflexivity.
    + apply (current_user_authenticated _ k); [reflexivity|].
      apply (filter_unique User.id); [|exact Ui|exact Hin].
      intros x. unfold has_user_id. rewrite Hk. apply opt_N_eqb_eq.
Qed.


End Accounts.

Lemma login_unknown_email_flashes_both_witness :
  login toy_check (post "/login" (login_submission "bob@example.com" "12345678"))
    visitor_world
  = Return
      (login_page (post "/login" (login_submission "bob@example.com" "12345678"))
         [])
      (mkWorld (db visitor_world) (session visitor_world)
         (flashes visitor_world
          ++ [("User with this email does not exist", "danger");
              ("Password is incorrect", "danger")]%string)).
Proof.
  apply (login_unknown_email_flashes_both toy_check
           (post "/login" (login_submission "bob@example.com" "12345678"))
           visitor_world);
    try (vm_compute; reflexivity).
  exists Anonymous. reflexivity.
Defined.

Lemma signup_existing_email_witness :
  signup toy_generate
    (post "/signup"
       [("email", py "alice@example.com"); ("name", py "Eve");
        ("password", py "12345678")]%string)
    visitor_world
  = Return (redirect (url_for Esignup))
      (flashed visitor_world "User with this email already exists" "danger")
  /\ db (flashed visitor_world "User with this email already exists" "danger")
     = db visitor_world.
Proof.
  destruct (signup_existing_email toy_generate
              (post "/signup"
                 [("email", py "alice@example.com"); ("name", py "Eve");
                  ("password", py "12345678")]%string)
              visitor_world alice (py "alice@example.com"))
    as (_ & _ & Hvalid & _).
  - left; reflexivity.
  - reflexivity.
  - reflexivity.
  - vm_compute; reflexivity.
  - split; [|reflexivity]. apply Hvalid. vm_compute; reflexivity.
Defined.

Lemma login_checks_password_witness :
  login toy_check
    (post "/login" (login_submission "alice@example.com" "correct horse"))
    visitor_world
  = Return (redirect (url_for Eindex)) (logged_in visitor_world (Some 1))
  /\ current_user (logged_in visitor_world (Some 1))
     = Return (Authenticated alice) (logged_in visitor_world (Some 1)).
Proof.
  apply (login_checks_password toy_check
           (post "/login" (login_submission "alice@example.com" "correct horse"))
           visitor_world alice (py "alice@example.com")
           (py "hash:correct horse") (py "correct horse") 1).
  - repeat constructor. simpl. tauto.
  - repeat constructor. simpl. tauto.
  - left; reflexivity.
  - reflexivity.
  - reflexivity.
  - reflexivity.
  - reflexivity.
  - vm_compute; reflexivity.
  - vm_compute; reflexivity.
  - vm_compute; reflexivity.
  - vm_compute; reflexivity.
Defined.


(** ** Deleting a cafe *)

Lemma get_cafe_inv (k : N) (d : DB) (found : option Cafe.t) :
  get_cafe k d = Ok found ->
  (9223372036854775808 <=? k) = false /\ find (has_cafe_id k) (cafes d) = found.
Proof.
  unfold get_cafe. destruct (_ <=? k); [discriminate|].
  intros H. now injection H as <-.
Qed.

(** C10.  For an existing cafe and a logged-in user: a submission with the
    cancel button leaves the whole world as it was and redirects to the
    detail view of the cafe; a submission with the delete button redirects
    to the listing, after which the detail view of the id answers 404, the
    listing is the former one without the rows of that id and so does not
    contain the cafe, and the users are as before. *)
Theorem delete_cafe_cancel_or_confirm
  (cafe_id : N) (req req' : Request) (w : World) (u : User.t) (cafe : Cafe.t) :
  current_user w = Return (Authenticated u) w ->
  get_cafe cafe_id (db w) = Ok (Some cafe) ->
  method req = POST ->
  (BooleanField_data "submit_cancel" (form req) = Some true ->
   BooleanField_data "submit_delete" (form req) = Some false ->
   delete_cafe cafe_id req w
   = Return (redirect (url_for (Eshow_cafe (Some cafe_id)))) w)
  /\ (BooleanField_data "submit_delete" (form req) = Some true ->
      exists w',
        delete_cafe cafe_id req w = Return (redirect (url_for Eindex)) w'
        /\ show_cafe cafe_id req' w' = Return (abort 404) w'
        /\ index req' w'
           = Return (render_template
                       (index_html
                          (filter (fun r => negb (has_cafe_id cafe_id r))
                             (cafes (db w))))) w'
        /\ ~ In cafe (cafes (db w'))
        /\ users (db w') = users (db w)
        /\ session w' = session w).
Proof.
  intros Hu Hget Hm.
  assert (R : forall v, delete_cafe cafe_id req w = v <->
                        delete_cafe_view cafe_id req w = v).
  { intros v. unfold delete_cafe.
    now rewrite (login_required_authenticated _ _ _ _ Hu). }
  destruct (get_cafe_inv _ _ _ Hget) as (Hsmall & Hfind).
  split.
  - intros Hc Hd. apply R.
    unfold delete_cafe_view, bind, get_db, lift, ret, formdata, is_submitted.
    rewrite Hget, Hm. cbn [DeleteCafeForm.validate andb no_errors].
    cbn [DeleteCafeForm.make DeleteCafeForm.submit_delete
           DeleteCafeForm.submit_cancel].
    now rewrite Hc, Hd.
  - intros Hd. eexists. split.
    + apply R.
      unfold delete_cafe_view, bind, get_db, lift, ret, put_db, formdata,
        is_submitted.
      rewrite Hget, Hm. cbn [DeleteCafeForm.validate andb no_errors].
      cbn [DeleteCafeForm.make DeleteCafeForm.submit_delete
             DeleteCafeForm.submit_cancel].
      rewrite Hd. reflexivity.
    + unfold show_cafe, index, bind, get_db, lift, ret, get_cafe,
        delete_cafe_row.
      cbn [db cafes users session]. rewrite Hsmall, find_filtered_out.
      split; [reflexivity|]. split.
      { apply render_resolved. apply (authenticated_resolves _ u).
        apply (current_user_frame w); [reflexivity|reflexivity|exact Hu]. }
      split; [|split; reflexivity].
      intros Hin. apply filter_In in Hin as [_ Hin].
      apply find_some in Hfind as [_ Hid].
      now rewrite Hid in Hin.
Qed.

Lemma delete_cafe_cancel_or_confirm_witness :
  delete_cafe 1
    (post "/cafe/1/delete" [("submit_cancel", py "Cancel")]%string)
    flat_white_world
  = Return (redirect (url_for (Eshow_cafe (Some 1)))) flat_white_world.
Proof.
  apply (delete_cafe_cancel_or_confirm 1
           (post "/cafe/1/delete" [("submit_cancel", py "Cancel")]%string)
           (post "/" []) flat_white_world alice flat_white);
    vm_compute; reflexivity.
Defined.

(** ** The validation rules *)

Lemma in_error_app (name : string) (a b : Errors) :
  in_error name (a ++ b) = in_error name a || in_error name b.
Proof. apply existsb_app. Qed.

Lemma in_error_field (name name' : string) (errs : list FieldError) :
  in_error name (field_errors name' errs)
  = String.eqb name' name && match errs with [] => false | _ => true end.
Proof.
  destruct errs; simpl; [now rewrite andb_false_r|].
  now rewrite orb_false_r, andb_true_r.
Qed.

Lemma errors_iff (errs : list FieldError) (P : Prop) :
  (errs = [] <-> P) ->
  (match errs with [] => false | _ => true end = true <-> ~ P).
Proof. destruct errs; intros [H1 H2]; split; intros; try congruence; try tauto.
  intros HP. specialize (H2 HP). discriminate. Qed.

Lemma present_iff (name : string) (fd : FormData) :
  validate_required (StringField_data name fd) = [] <-> present name fd.
Proof. apply validate_required_nil. Qed.

Lemma StringField_submitted (name : string) (fd : FormData) (v : str) :
  StringField_data name fd = Some v -> submitted name fd = v.
Proof.
  unfold StringField_data, submitted.
  destruct (getlist name fd); simpl; congruence.
Qed.

Lemma password_ok_iff (fd : FormData) :
  validate_password (StringField_data "password" fd) = [] <-> password_ok fd.
Proof.
  rewrite validate_password_nil. unfold password_ok, present. split.
  - intros (v & Hv & Hs & Hl).
    rewrite (StringField_submitted _ _ _ Hv). eauto.
  - intros ((v & Hv & Hs) & Hl).
    rewrite (StringField_submitted _ _ _ Hv) in Hl. eauto.
Qed.

Lemma seats_ok_iff (fd : FormData) :
  AddCafeForm.validate_seats (StringField_data "seats" fd) = [] <-> seats_ok fd.
Proof.
  rewrite validate_seats_nil. unfold seats_ok. split.
  - intros (v & Hv & Hin). now rewrite (StringField_submitted _ _ _ Hv).
  - unfold StringField_data, submitted.
    destruct (getlist "seats" fd) as [|v l]; simpl.
    + intros H. repeat destruct H as [H|H]; discriminate || contradiction.
    + eauto.
Qed.

Lemma price_at_least_0_accepted (fd : FormData) (errs : list FieldError) :
  validate_coffee_price (DecimalField_data "coffee_price" fd) = Ok errs ->
  errs = [] -> price_at_least_0 fd.
Proof.
  intros H ->. apply validate_coffee_price_nil in H as (d & Hd & _ & G).
  exists d. split; [|exact G]. rewrite <- Hd.
  unfold DecimalField_data, submitted.
  now destruct (getlist "coffee_price" fd).
Qed.

Lemma errors_when (errs : list FieldError) (P : Prop) :
  (errs = [] -> P) -> ~ P ->
  match errs with [] => false | _ => true end = true.
Proof. destruct errs; [intros H N; now destruct N; apply H|reflexivity]. Qed.

(** C4, as the code has it.  The URL fields need not look like URLs: a
    submission whose [map_url] and [img_url] are plain words is accepted. *)
Lemma url_shape_not_checked :
  AddCafeForm.validate (AddCafeForm.make plain_words_submission) = Ok []
  /\ url_shape (submitted "map_url" plain_words_submission) = false
  /\ url_shape (submitted "img_url" plain_words_submission) = false.
Proof. repeat split; vm_compute; reflexivity. Qed.

(** C4, amended: the claim without its clause on the shape of the URLs.
    The cafe form is accepted only if name, map_url, img_url and location
    are present, seats is one of the bucket choices and the price is at
    least 0, and whenever its validation returns, each of these rules that
    is broken gives its field an entry in the errors.  The signup and the
    login form are accepted only if their text fields are present and the
    password has at least 8 characters, and each of these rules that is
    broken gives its field an entry in the errors. *)
Theorem validation_rules (fd : FormData) :
  (AddCafeForm.validate (AddCafeForm.make fd) = Ok [] ->
   present "name" fd /\ present "map_url" fd /\ present "img_url" fd
   /\ present "location" fd /\ seats_ok fd /\ price_at_least_0 fd)
  /\ (forall errs,
        AddCafeForm.validate (AddCafeForm.make fd) = Ok errs ->
        (~ present "name" fd -> in_error "name" errs = true)
        /\ (~ present "map_url" fd -> in_error "map_url" errs = true)
        /\ (~ present "img_url" fd -> in_error "img_url" errs = true)
        /\ (~ present "location" fd -> in_error "location" errs = true)
        /\ (~ seats_ok fd -> in_error "seats" errs = true)
        /\ (~ price_at_least_0 fd -> in_error "coffee_price" errs = true))
  /\ (SignupForm.validate (SignupForm.make fd) = [] ->
      present "email" fd /\ present "name" fd /\ password_ok fd)
  /\ (~ present "email" fd ->
      in_error "email" (SignupForm.validate (SignupForm.make fd)) = true)
  /\ (~ present "name" fd ->
      in_error "name" (SignupForm.validate (SignupForm.make fd)) = true)
  /\ (~ password_ok fd ->
      in_error "password" (SignupForm.validate (SignupForm.make fd)) = true)
  /\ (LoginForm.validate (LoginForm.make fd) = [] ->
      present "email" fd /\ password_ok fd)
  /\ (~ present "email" fd ->
      in_error "email" (LoginForm.validate (LoginForm.make fd)) = true)
  /\ (~ password_ok fd ->
      in_error "password" (LoginForm.validate (LoginForm.make fd)) = true).
Proof.
  pose proof (proj1 (present_iff "name" fd)) as Pn.
  pose proof (proj1 (present_iff "map_url" fd)) as Pm.
  pose proof (proj1 (present_iff "img_url" fd)) as Pi.
  pose proof (proj1 (present_iff "location" fd)) as Pl.
  pose proof (proj1 (present_iff "email" fd)) as Pe.
  pose proof (proj1 (seats_ok_iff fd)) as Ps.
  pose proof (proj1 (password_ok_iff fd)) as Pw.
  assert (Cafe : forall errs,
             AddCafeForm.validate (AddCafeForm.make fd) = Ok errs ->
             exists pe,
               validate_coffee_price (DecimalField_data "coffee_price" fd)
               = Ok pe
               /\ errs
                  = field_errors "name"
                      (validate_required (StringField_data "name" fd))
                    ++ field_errors "map_url"
                         (validate_required (StringField_data "map_url" fd))
                    ++ field_errors "img_url"
                         (validate_required (StringField_data "img_url" fd))
                    ++ field_errors "location"
                         (validate_required (StringField_data "location" fd))
                    ++ field_errors "seats"
                         (AddCafeForm.validate_seats
                            (StringField_data "seats" fd))
                    ++ field_errors "coffee_price" pe).
  { intros errs V. unfold AddCafeForm.validate in V.
    cbn [AddCafeForm.make AddCafeForm.name AddCafeForm.map_url
           AddCafeForm.img_url AddCafeForm.location AddCafeForm.seats
           AddCafeForm.coffee_price] in V.
    destruct (validate_coffee_price (DecimalField_data "coffee_price" fd))
      as [pe|x]; [|discriminate].
    cbn [Result_bind] in V. injection V as <-. now exists pe. }
  unfold SignupForm.validate, LoginForm.validate.
  cbn [SignupForm.make SignupForm.email SignupForm.name SignupForm.password
         LoginForm.make LoginForm.email LoginForm.password].
  rewrite !in_error_app, !in_error_field.
  cbn [String.eqb Ascii.eqb Bool.eqb andb orb].
  rewrite ?orb_false_r.
  repeat match goal with
         | |- _ /\ _ => split
         end;
    try (apply errors_when; assumption).
  - intros V. destruct (Cafe _ V) as (pe & Vp & H). symmetry in H.
    repeat (apply app_eq_nil in H as [?%field_errors_nil H]).
    apply field_errors_nil in H.
    pose proof (price_at_least_0_accepted fd pe Vp H). tauto.
  - intros errs V. destruct (Cafe _ V) as (pe & Vp & ->).
    pose proof (price_at_least_0_accepted fd pe Vp) as Pp.
    rewrite !in_error_app, !in_error_field.
    cbn [String.eqb Ascii.eqb Bool.eqb andb orb].
    rewrite ?orb_false_r.
    repeat match goal with
           | |- _ /\ _ => split
           end;
      apply errors_when; assumption.
  - intros H.
    repeat (apply app_eq_nil in H as [?%field_errors_nil H]).
    apply field_errors_nil in H. tauto.
  - intros H.
    repeat (apply app_eq_nil in H as [?%field_errors_nil H]).
    apply field_errors_nil in H. tauto.
Qed.

Lemma validation_rules_witness :
  AddCafeForm.validate (AddCafeForm.make (cafe_submission "Flat White" "-1"))
  = Ok [("coffee_price", [BelowMinimum])]%string
  /\ in_error "coffee_price" [("coffee_price", [BelowMinimum])]%string = true.
Proof.
  split; [vm_compute; reflexivity|].
  destruct (validation_rules (cafe_submission "Flat White" "-1"))
    as (_ & H & _).
  destruct (H [("coffee_price", [BelowMinimum])]%string)
    as (_ & _ & _ & _ & _ & Hp).
  - vm_compute; reflexivity.
  - apply Hp. intros (d & Hd & G). vm_compute in Hd. injection Hd as <-.
    vm_compute in G. discriminate G.
Defined.

(* ================================================================== *)

(** * Further properties of the forms and the views *)

(** ** From a form to an object and back *)

(** X1.  Whatever object [populate_obj] fills from a form, [prefill_form]
    reads back the form: every field is the one of the form, the price
    is the price of the form rescaled to two decimals, and the submit
    button is the one of the form that is prefilled.  This holds for every
    price a form can hold, infinities and NaNs included. *)
Theorem populate_then_prefill
  (capacity : N) (form form0 : AddCafeForm.t) (obj cafe : Cafe.t) :
  AddCafeForm.populate_obj capacity form obj = Ok cafe ->
  exists d,
    AddCafeForm.coffee_price form = Some d
    /\ AddCafeForm.prefill_form form0 cafe
       = Ok (AddCafeForm.mk (AddCafeForm.name form) (AddCafeForm.map_url form)
               (AddCafeForm.img_url form) (AddCafeForm.location form)
               (AddCafeForm.has_sockets form) (AddCafeForm.has_wifi form)
               (AddCafeForm.can_take_calls form)
               (AddCafeForm.has_toilet form) (AddCafeForm.seats form)
               (Some (rescale d)) (AddCafeForm.submit form0)).
Proof.
  intros H. apply populate_obj_price in H as (d & Hd & _ & ->).
  exists d. split; [exact Hd|].
  unfold AddCafeForm.prefill_form.
  cbn [Cafe.coffee_price AddCafeForm.str_of_price].
  rewrite (proj2 (format_2f_clean d)), Decimal_of_str_format_2f.
  reflexivity.
Qed.

Lemma populate_then_prefill_witness :
  exists d,
    AddCafeForm.coffee_price
      (AddCafeForm.make (cafe_submission "Flat White" "2.505")) = Some d
    /\ AddCafeForm.prefill_form (AddCafeForm.make []) flat_white
       = Ok (AddCafeForm.mk (Some (py "Flat White"))
               (Some (py "https://maps.example/soho"))
               (Some (py "https://img.example/soho.png")) (Some (py "Soho"))
               (Some false) (Some true) (Some false) (Some false)
               (Some (py "10-20")) (Some (rescale d)) (Some false)).
Proof.
  apply (populate_then_prefill 1000000
           (AddCafeForm.make (cafe_submission "Flat White" "2.505"))
           (AddCafeForm.make [])
           (Cafe.mk (Some 1) None None None None None None None None None None)
           flat_white).
  vm_compute; reflexivity.
Defined.

(** The coefficient that [rescale2] gives is the number of pennies nearest
    to the price, and the even one of two that are equally near. *)
Lemma rescale2_nearest (c : N) (e : Z) :
  (e < -2)%Z ->
  let m := pow10 (- 2 - e) in
  2 * distance c (rescale2 c e * m) <= m
  /\ (2 * (c mod m) = m -> N.even (rescale2 c e) = true).
Proof.
  intros He m.
  assert (Hm : 0 < m) by (unfold m, pow10; apply N.neq_0_lt_0, N.pow_nonzero; lia).
  unfold rescale2. destruct (c =? 0) eqn:C0.
  - apply N.eqb_eq in C0. subst c. split.
    + unfold distance. cbn. lia.
    + reflexivity.
  - replace (-2 <=? e)%Z with false by (symmetry; apply Z.leb_gt; lia).
    fold m. unfold round_half_even, distance.
    pose proof (N.div_mod c m ltac:(lia)) as D.
    pose proof (N.mod_lt c m ltac:(lia)) as R.
    generalize dependent (c / m). generalize dependent (c mod m).
    intros r R q D.
    destruct (m <? 2 * r) eqn:L1.
    + apply N.ltb_lt in L1. split; [nia|lia].
    + apply N.ltb_ge in L1.
      destruct (2 * r =? m) eqn:L2.
      * apply N.eqb_eq in L2. destruct (N.odd q) eqn:O; cbn [andb].
        -- split; [nia|]. intros _.
           rewrite N.add_1_r, N.even_succ. exact O.
        -- split; [nia|]. intros _.
           rewrite <- N.negb_odd, O. reflexivity.
      * apply N.eqb_neq in L2. cbn [andb]. split; [nia|congruence].
Qed.

(** X2.  The price that [populate_obj] writes from a form with a finite
    price is the currency symbol, the sign of the price and a number of
    pennies written as pounds, a point and two digits.  That number of
    pennies is the price itself when the price has at most two decimal
    digits; otherwise, with [m] the weight of a penny in units of the last
    digit of the price, it is within half a penny of the price, and even
    when the price lies exactly between two pennies. *)
Theorem stored_price_nearest_penny
  (capacity : N) (form : AddCafeForm.t) (obj cafe : Cafe.t)
  (s : bool) (c : N) (e : Z) :
  AddCafeForm.coffee_price form = Some (Finite s c e) ->
  AddCafeForm.populate_obj capacity form obj = Ok cafe ->
  exists pennies,
    Cafe.coffee_price cafe
    = Some (pound :: sign_str s ++ str_of_N (pennies / 100) ++ [46]
              ++ two_digits (pennies mod 100))
    /\ ((-2 <= e)%Z -> pennies = c * pow10 (e + 2))
    /\ ((e < -2)%Z ->
        let m := pow10 (- 2 - e) in
        2 * distance c (pennies * m) <= m
        /\ (2 * (c mod m) = m -> N.even pennies = true)).
Proof.
  intros Hprice H. apply populate_obj_price in H as (d & Hd & _ & ->).
  rewrite Hprice in Hd. injection Hd as <-.
  exists (rescale2 c e). split; [reflexivity|].
  split; [apply rescale2_exact|apply rescale2_nearest].
Qed.

Lemma stored_price_nearest_penny_witness :
  exists pennies,
    Cafe.coffee_price flat_white
    = Some (pound :: sign_str false ++ str_of_N (pennies / 100) ++ [46]
              ++ two_digits (pennies mod 100))
    /\ ((-2 <= -3)%Z -> pennies = 2505 * pow10 (-3 + 2))
    /\ ((-3 < -2)%Z ->
        let m := pow10 (- 2 - -3) in
        2 * distance 2505 (pennies * m) <= m
        /\ (2 * (2505 mod m) = m -> N.even pennies = true)).
Proof.
  apply (stored_price_nearest_penny 1000000
           (AddCafeForm.make (cafe_submission "Flat White" "2.505"))
           (Cafe.mk (Some 1) None None None None None None None None None None)
           flat_white false 2505 (-3)%Z);
    vm_compute; reflexivity.
Defined.

(** ** Edges of the validators *)

Lemma lstrip_spaces (s : str) :
  Forall (fun c => isspace c = true) s -> lstrip s = [].
Proof. induction 1 as [|c s Hc _ IH]; simpl; [reflexivity|]. now rewrite Hc. Qed.

(** X3.  A text field that holds only whitespace counts as missing: the
    field gets the error of [DataRequired], and for a password this error
    is the only one, however long the blank password is. *)
Theorem blank_field_is_required (s : str) :
  Forall (fun c => isspace c = true) s ->
  validate_required (Some s) = [Required]
  /\ validate_password (Some s) = [Required].
Proof.
  intros H.
  assert (E : strip s = []).
  { unfold strip, rstrip. now rewrite (lstrip_spaces s H). }
  unfold validate_required, validate_password, DataRequired.
  now rewrite E.
Qed.

Lemma blank_field_is_required_witness :
  validate_required (Some (py "          ")) = [Required]
  /\ validate_password (Some (py "          ")) = [Required].
Proof.
  apply (blank_field_is_required (py "          ")).
  repeat constructor.
Defined.

(** X4.  A price of zero is not accepted, whatever its sign and exponent:
    [DataRequired] takes the zero for a missing value before [NumberRange]
    is asked, so validation of the cafe form returns with the error of
    [DataRequired] on [coffee_price]. *)
Theorem zero_price_is_required (fd : FormData) (s : bool) (e : Z) :
  Decimal_of_str (submitted "coffee_price" fd) = Some (Finite s 0 e) ->
  exists errs,
    AddCafeForm.validate (AddCafeForm.make fd) = Ok errs
    /\ In ("coffee_price"%string, [Required]) errs.
Proof.
  intros H.
  assert (D : DecimalField_data "coffee_price" fd = Some (Finite s 0 e)).
  { rewrite <- H. unfold DecimalField_data, submitted.
    now destruct (getlist "coffee_price" fd). }
  unfold AddCafeForm.validate.
  cbn [AddCafeForm.make AddCafeForm.coffee_price]. rewrite D.
  cbn [validate_coffee_price Decimal_bool N.eqb negb Result_bind].
  eexists. split; [reflexivity|].
  rewrite !in_app_iff. do 5 right. now left.
Qed.

Lemma zero_price_is_required_witness :
  exists errs,
    AddCafeForm.validate
      (AddCafeForm.make (cafe_submission "Flat White" "0.00")) = Ok errs
    /\ In ("coffee_price"%string, [Required]) errs.
Proof.
  apply (zero_price_is_required (cafe_submission "Flat White" "0.00")
           false (-2)%Z).
  vm_compute; reflexivity.
Defined.

(** ** Ids without a row, submissions that do not validate *)

(** X5.  For an id that SQLite can hold and that no cafe has, the detail
    view answers 404 to anyone, whatever the session, and the edit and
    delete views answer 404 to a logged-in user, whatever the method and
    the submitted data; the world is left as it was. *)
Theorem missing_cafe_is_404 (cafe_id : N) (req : Request) (w : World) :
  get_cafe cafe_id (db w) = Ok None ->
  show_cafe cafe_id req w = Return (abort 404) w
  /\ (forall u,
        current_user w = Return (Authenticated u) w ->
        edit_cafe cafe_id req w = Return (abort 404) w
        /\ delete_cafe cafe_id req w = Return (abort 404) w).
Proof.
  intros Hget. split.
  - unfold show_cafe, bind, get_db, lift, ret. now rewrite Hget.
  - intros u Hu. unfold edit_cafe, delete_cafe.
    rewrite !(login_required_authenticated _ _ _ _ Hu).
    unfold edit_cafe_view, delete_cafe_view, bind, get_db, lift, ret.
    now rewrite Hget.
Qed.

Lemma missing_cafe_is_404_witness :
  show_cafe 9 (post "/cafe/9" []) flat_white_world
  = Return (abort 404) flat_white_world
  /\ edit_cafe 9 (post "/cafe/9" []) flat_white_world
     = Return (abort 404) flat_white_world
  /\ delete_cafe 9 (post "/cafe/9" []) flat_white_world
     = Return (abort 404) flat_white_world.
Proof.
  destruct (missing_cafe_is_404 9 (post "/cafe/9" []) flat_white_world)
    as (Hshow & Hguarded).
  - vm_compute; reflexivity.
  - split; [exact Hshow|]. apply (Hguarded alice). vm_compute; reflexivity.
Defined.

(** X6.  A submission to [add_cafe] on which validation returns errors
    creates nothing: the answer is the form again with exactly these
    errors, and the world is left as it was. *)
Theorem invalid_submission_creates_nothing
  (req : Request) (w : World) (u : User.t) (errs : Errors) :
  current_user w = Return (Authenticated u) w ->
  method req = POST ->
  AddCafeForm.validate (AddCafeForm.make (form req)) = Ok errs ->
  errs <> [] ->
  add_cafe req w
  = Return (render_template
              (form_html "Add cafe" (cafe_form (AddCafeForm.make (form req)))
                 errs Eadd_cafe)) w.
Proof.
  intros Hu Hm V Hne. unfold add_cafe.
  rewrite (login_required_authenticated _ _ _ _ Hu).
  unfold add_cafe_view, formdata, is_submitted. rewrite Hm.
  unfold bind, lift, ret. rewrite V.
  destruct errs; [congruence|]. cbn [andb no_errors].
  apply render_resolved. now apply (authenticated_resolves _ u).
Qed.

Lemma invalid_submission_creates_nothing_witness :
  add_cafe (post "/cafe/add" (cafe_submission "Flat White" "-1")) alice_world
  = Return (render_template
              (form_html "Add cafe"
                 (cafe_form (AddCafeForm.make (cafe_submission "Flat White" "-1")))
                 [("coffee_price", [BelowMinimum])]%string Eadd_cafe))
      alice_world.
Proof.
  apply (invalid_submission_creates_nothing
           (post "/cafe/add" (cafe_submission "Flat White" "-1"))
           alice_world alice).
  - vm_compute; reflexivity.
  - reflexivity.
  - vm_compute; reflexivity.
  - discriminate.
Defined.

(** ** Editing a cafe *)

(** X7.  The edit form of a cafe that has no price cannot be shown: for a
    logged-in user, a GET of [edit_cafe] for a cafe whose [coffee_price] is
    NULL (the column is nullable) raises [InvalidOperation] out of
    [prefill_form], which reads the text ['None'] as a number; the world is
    left as it was. *)
Theorem edit_form_of_unpriced_cafe_raises
  (cafe_id : N) (req : Request) (w : World) (u : User.t) (cafe : Cafe.t) :
  current_user w = Return (Authenticated u) w ->
  get_cafe cafe_id (db w) = Ok (Some cafe) ->
  Cafe.coffee_price cafe = None ->
  method req = GET ->
  (forall form, AddCafeForm.prefill_form form cafe = Raise InvalidOperation)
  /\ edit_cafe cafe_id req w = Raised InvalidOperation w.
Proof.
  intros Hu Hget Hp Hm.
  assert (P : forall form,
             AddCafeForm.prefill_form form cafe = Raise InvalidOperation).
  { intros form. unfold AddCafeForm.prefill_form. rewrite Hp. reflexivity. }
  split; [exact P|].
  unfold edit_cafe. rewrite (login_required_authenticated _ _ _ _ Hu).
  unfold edit_cafe_view, bind, get_db, ret, lift.
  now rewrite Hget, Hm, P.
Qed.

Lemma edit_form_of_unpriced_cafe_raises_witness :
  (forall form,
      AddCafeForm.prefill_form form espresso_bar = Raise InvalidOperation)
  /\ edit_cafe 2 (get "/cafe/2/edit") two_cafes_world
     = Raised InvalidOperation two_cafes_world.
Proof.
  apply (edit_form_of_unpriced_cafe_raises 2 (get "/cafe/2/edit")
           two_cafes_world alice espresso_bar);
    vm_compute; reflexivity.
Defined.

(** X8.  For a cafe whose price was written by [populate_obj], a GET of
    [edit_cafe] by a logged-in user shows the form filled with the values
    of the row, the price without the currency symbol, without errors, and
    leaves the world as it was. *)
Theorem edit_form_shows_the_row
  (cafe_id : N) (req : Request) (w : World) (u : User.t) (cafe : Cafe.t)
  (d : Decimal) :
  current_user w = Return (Authenticated u) w ->
  get_cafe cafe_id (db w) = Ok (Some cafe) ->
  Cafe.coffee_price cafe = Some (pound :: format_2f d) ->
  method req = GET ->
  edit_cafe cafe_id req w
  = Return (render_template
              (form_html "Edit cafe"
                 (cafe_form
                    (AddCafeForm.mk (Cafe.name cafe) (Cafe.map_url cafe)
                       (Cafe.img_url cafe) (Cafe.location cafe)
                       (Cafe.has_sockets cafe) (Cafe.has_wifi cafe)
                       (Cafe.can_take_calls cafe) (Cafe.has_toilet cafe)
                       (Cafe.seats cafe) (Some (rescale d)) (Some false)))
                 [] (Eedit_cafe cafe_id))) w.
Proof.
  intros Hu Hget Hp Hm.
  unfold edit_cafe. rewrite (login_required_authenticated _ _ _ _ Hu).
  unfold edit_cafe_view, bind, get_db, ret, lift, formdata, is_submitted.
  rewrite Hget, Hm. unfold AddCafeForm.prefill_form. rewrite Hp.
  cbn [AddCafeForm.str_of_price].
  rewrite (proj2 (format_2f_clean d)), Decimal_of_str_format_2f.
  cbn [andb]. apply render_resolved. now apply (authenticated_resolves _ u).
Qed.

Lemma edit_form_shows_the_row_witness :
  edit_cafe 1 (get "/cafe/1/edit") flat_white_world
  = Return (render_template
              (form_html "Edit cafe"
                 (cafe_form
                    (AddCafeForm.mk (Cafe.name flat_white)
                       (Cafe.map_url flat_white) (Cafe.img_url flat_white)
                       (Cafe.location flat_white)
                       (Cafe.has_sockets flat_white) (Cafe.has_wifi flat_white)
                       (Cafe.can_take_calls flat_white)
                       (Cafe.has_toilet flat_white) (Cafe.seats flat_white)
                       (Some (rescale (Finite false 25 (-1)))) (Some false)))
                 [] (Eedit_cafe 1))) flat_white_world.
Proof.
  apply (edit_form_shows_the_row 1 (get "/cafe/1/edit") flat_white_world
           alice flat_white (Finite false 25 (-1)));
    vm_compute; reflexivity.
Defined.


(** A form that validates populates an object that has no NULL in a
    [NOT NULL] column. *)





(** ** Accounts: from signup to login, profile, logout *)

Lemma find_none_existsb {A} (p : A -> bool) (l : list A) :
  find p l = None -> existsb p l = false.
Proof.
  induction l as [|x l IH]; simpl; [reflexivity|].
  destruct (p x); [discriminate|exact IH].
Qed.

Lemma next_user_id_fresh (rows : list User.t) :
  existsb (has_user_id (next_id (map User.id rows))) rows = false.
Proof.
  destruct (existsb _ rows) eqn:E; [|reflexivity].
  apply existsb_exists in E as (x & Hin & Hx).
  apply opt_N_eqb_eq in Hx.
  assert (In (Some (next_id (map User.id rows))) (map User.id rows)).
  { rewrite <- Hx. now apply in_map. }
  apply next_id_bound in H. lia.
Qed.

Lemma filter_last {A} (p : A -> bool) (l : list A) (x : A) :
  existsb p l = false -> p x = true -> filter p (l ++ [x]) = [x].
Proof.
  intros Hl Hx. rewrite filter_app, (filter_none _ _ Hl). simpl.
  now rewrite Hx.
Qed.

(** X11.  With a hasher whose check accepts the hashes it generates: a
    signup that validates, with an email that no user has, stores one new
    user with the submitted email and name and the hash of the submitted
    password, leaves the cafes and the session as they were and redirects
    to the login view; a login with the same email and password then
    succeeds, and the current user of the session is the new user. *)
Theorem signup_then_login
  (generate_password_hash : str -> str -> str)
  (check_password_hash : str -> str -> bool)
  (req req2 : Request) (w : World) (e p : str) :
  (forall salt password,
      check_password_hash (generate_password_hash salt password) password
      = true) ->
  method req = POST ->
  SignupForm.validate (SignupForm.make (form req)) = [] ->
  StringField_data "email" (form req) = Some e ->
  StringField_data "password" (form req) = Some p ->
  select_user_by_email (Some e) (db w) = None ->
  method req2 = POST ->
  StringField_data "email" (form req2) = Some e ->
  StringField_data "password" (form req2) = Some p ->
  args_next req2 = None ->
  exists row w1,
    signup generate_password_hash req w
    = Return (redirect (url_for (Elogin None))) w1
    /\ row = User.mk (Some (next_id (map User.id (users (db w))))) (Some e)
               (Some (generate_password_hash (entropy req) p))
               (StringField_data "name" (form req))
    /\ w1 = mkWorld (mkDB (cafes (db w)) (users (db w) ++ [row]))
              (session w) (flashes w)
    /\ login check_password_hash req2 w1
       = Return (redirect (url_for Eindex)) (logged_in w1 (User.id row))
    /\ current_user (logged_in w1 (User.id row))
       = Return (Authenticated row) (logged_in w1 (User.id row)).
Proof.
  intros Law Hm V He Hp Hfresh Hm2 He2 Hp2 Hnext.
  assert (Vparts : validate_required (Some e) = []
                   /\ validate_required (StringField_data "name" (form req)) = []
                   /\ validate_password (Some p) = []).
  { unfold SignupForm.validate in V.
    cbn [SignupForm.make SignupForm.email SignupForm.name
           SignupForm.password] in V.
    rewrite He, Hp in V.
    apply app_eq_nil in V as [V1%field_errors_nil V].
    apply app_eq_nil in V as [V2%field_errors_nil V3%field_errors_nil].
    tauto. }
  destruct Vparts as (Ve & Vn & Vp).
  apply validate_required_nil in Vn as (n & Hn & _).
  eexists. eexists. split; [|split; [reflexivity|split; [reflexivity|]]].
  - unfold signup, formdata, is_submitted. rewrite Hm, V.
    cbn [andb no_errors]. unfold bind, get_db, put_db, ret, lift.
    cbn [SignupForm.make SignupForm.email SignupForm.name
           SignupForm.password].
    rewrite He, Hp, Hfresh. unfold insert_user, user_not_null.
    cbn [User.email User.password_hash User.name]. rewrite Hn.
    cbn [is_some andb].
    unfold select_user_by_email in Hfresh.
    rewrite (find_none_existsb _ _ Hfresh). cbn [negb].
    unfold with_user_id. cbn. reflexivity.
  - rewrite Hn.
    set (k := next_id (map User.id (users (db w)))).
    set (row := User.mk (Some k) (Some e)
                  (Some (generate_password_hash (entropy req) p)) (Some n)).
    split.
    + unfold login, formdata, is_submitted. rewrite Hm2.
      unfold LoginForm.validate.
      cbn [LoginForm.make LoginForm.email LoginForm.password].
      rewrite He2, Hp2, Ve, Vp. cbn [field_errors app andb no_errors].
      unfold bind, get_db, ret, flash, lift, login_user,
        select_user_by_email.
      cbn [db users].
      rewrite (find_last (has_email (Some e)) (users (db w)) row).
      * unfold check_password. cbn [row User.password_hash].
        rewrite Law, Hnext. reflexivity.
      * intros x Hx. unfold select_user_by_email in Hfresh.
        now apply (find_none _ _ Hfresh).
      * unfold has_email. cbn. apply str_eqb_refl.
    + apply (current_user_authenticated _ k); [reflexivity|].
      cbn [logged_in db users].
      apply filter_last; [apply next_user_id_fresh|].
      unfold has_user_id. cbn. apply N.eqb_refl.
Qed.

Lemma signup_then_login_witness :
  exists row w1,
    signup toy_generate
      (post "/signup"
         [("email", py "bob@example.com"); ("name", py "Bob");
          ("password", py "12345678")]%string)
      visitor_world
    = Return (redirect (url_for (Elogin None))) w1
    /\ row = User.mk (Some (next_id (map User.id (users (db visitor_world)))))
               (Some (py "bob@example.com"))
               (Some (toy_generate [] (py "12345678")))
               (StringField_data "name"
                  [("email", py "bob@example.com"); ("name", py "Bob");
                   ("password", py "12345678")]%string)
    /\ w1 = mkWorld
              (mkDB (cafes (db visitor_world))
                 (users (db visitor_world) ++ [row]))
              (session visitor_world) (flashes visitor_world)
    /\ login toy_check
         (post "/login" (login_submission "bob@example.com" "12345678")) w1
       = Return (redirect (url_for Eindex)) (logged_in w1 (User.id row))
    /\ current_user (logged_in w1 (User.id row))
       = Return (Authenticated row) (logged_in w1 (User.id row)).
Proof.
  apply (signup_then_login toy_generate toy_check
           (post "/signup"
              [("email", py "bob@example.com"); ("name", py "Bob");
               ("password", py "12345678")]%string)
           (post "/login" (login_submission "bob@example.com" "12345678"))
           visitor_world (py "bob@example.com") (py "12345678"));
    try (vm_compute; reflexivity).
  intros salt password. unfold toy_check, toy_generate. apply str_eqb_refl.
Defined.

(** X12.  For a logged-in user [logout] empties the session and redirects
    to the page the request came from, leaving the database as it was;
    after it, every view behind [login_required] answers with the redirect
    to the login view instead of running. *)
Theorem logout_ends_the_session
  (view : Request -> M Response) (req req' : Request) (w : World)
  (u : User.t) (back : str) :
  current_user w = Return (Authenticated u) w ->
  referrer req = Some back ->
  logout req w = Return (redirect (Url (Some back))) (logged_in w None)
  /\ current_user (logged_in w None) = Return Anonymous (logged_in w None)
  /\ login_required view req' (logged_in w None)
     = Return (redirect (url_for (Elogin (Some (url req')))))
         (flashed (logged_in w None)
            "Please log in to access this page." "message").
Proof.
  intros Hu Hback. split; [|split].
  - unfold logout. rewrite (login_required_authenticated _ _ _ _ Hu).
    unfold logout_view, bind, logout_user, ret. now rewrite Hback.
  - reflexivity.
  - now apply login_required_anonymous.
Qed.

Lemma logout_ends_the_session_witness :
  logout
    (mkRequest GET (py "/logout") None [] (Some (py "/cafe/1")) [] 1000000)
    alice_world
  = Return (redirect (Url (Some (py "/cafe/1")))) (logged_in alice_world None)
  /\ current_user (logged_in alice_world None)
     = Return Anonymous (logged_in alice_world None)
  /\ login_required add_cafe_view (get "/cafe/add") (logged_in alice_world None)
     = Return (redirect (url_for (Elogin (Some (py "/cafe/add")))))
         (flashed (logged_in alice_world None)
            "Please log in to access this page." "message").
Proof.
  apply (logout_ends_the_session add_cafe_view
           (mkRequest GET (py "/logout") None [] (Some (py "/cafe/1")) []
              1000000)
           (get "/cafe/add") alice_world alice (py "/cafe/1"));
    vm_compute; reflexivity.
Defined.

Lemma map_replaced {A B} (f : A -> B) (p : A -> bool) (c : A) (l : list A) :
  (forall r, In r l -> p r = true -> f c = f r) ->
  map f (map (fun r => if p r then c else r) l) = map f l.
Proof.
  induction l as [|x l IH]; simpl; intros H; [reflexivity|].
  rewrite IH by (intros r Hr; apply H; now right). f_equal.
  destruct (p x) eqn:E; [|reflexivity]. apply H; [now left|exact E].
Qed.

Lemma filter_replaced {A} (p : A -> bool) (c u : A) (l : list A) :
  p c = true -> filter p l = [u] ->
  filter p (map (fun r => if p r then c else r) l) = [c].
Proof.
  intros Hc. induction l as [|x l IH]; simpl; [discriminate|].
  destruct (p x) eqn:E.
  - rewrite Hc. intros H. injection H as _ H. f_equal.
    clear IH. induction l as [|y l IH]; simpl in *; [reflexivity|].
    destruct (p y) eqn:Ey; [discriminate|]. rewrite Ey. now apply IH.
  - rewrite E. exact IH.
Qed.

Lemma current_user_inv (w w' : World) (u : User.t) :
  current_user w = Return (Authenticated u) w' ->
  exists k, session w = Some k
            /\ filter (has_user_id k) (users (db w)) = [u]
            /\ User.id u = Some k /\ w' = w.
Proof.
  unfold current_user, load_user, bind, get_db, lift, ret,
    select_user_by_id_one.
  destruct (session w) as [k|]; [|discriminate].
  destruct (filter (has_user_id k) (users (db w))) as [|x [|y l]] eqn:F;
    try discriminate.
  intros H. injection H as <- <-. exists k.
  assert (In x (filter (has_user_id k) (users (db w))))
    by (rewrite F; now left).
  apply filter_In in H as [_ H]. apply opt_N_eqb_eq in H.
  repeat split; assumption.
Qed.

(** X13.  For a logged-in user whose row has an email and a password
    hash, a submission to [edit_profile] with a name that is not blank
    changes the display name of that user and nothing else: the ids, the
    emails and the password hashes of the user table are as before, every
    other user, the cafes and the session are as before, the current user
    is the same user under the new name, and the answer is a redirect to
    the listing. *)
Theorem edit_profile_changes_the_name_only
  (req : Request) (w : World) (u : User.t) (e h n : str) :
  current_user w = Return (Authenticated u) w ->
  User.email u = Some e ->
  User.password_hash u = Some h ->
  method req = POST ->
  StringField_data "name" (form req) = Some n ->
  strip n <> [] ->
  exists w',
    edit_profile req w = Return (redirect (url_for Eindex)) w'
    /\ cafes (db w') = cafes (db w)
    /\ session w' = session w
    /\ flashes w' = flashes w
    /\ map User.id (users (db w')) = map User.id (users (db w))
    /\ map User.email (users (db w')) = map User.email (users (db w))
    /\ map User.password_hash (users (db w'))
       = map User.password_hash (users (db w))
    /\ (forall r, In r (users (db w)) -> User.id r <> User.id u ->
                  In r (users (db w')))
    /\ current_user w'
       = Return (Authenticated
                   (User.mk (User.id u) (Some e) (Some h) (Some n))) w'.
Proof.
  intros Hu He Hh Hm Hn Hs.
  destruct (current_user_inv _ _ _ Hu) as (k & Hsess & Hf & Hk & _).
  assert (Only : forall r, In r (users (db w)) -> has_user_id k r = true ->
                           r = u).
  { intros r Hr Hp.
    assert (In r (filter (has_user_id k) (users (db w))))
      by (apply filter_In; tauto).
    rewrite Hf in H. destruct H as [H|[]]. now symmetry. }
  set (u' := User.mk (User.id u) (Some e) (Some h) (Some n)).
  assert (Hrun : edit_profile req w
                 = Return (redirect (url_for Eindex))
                     (mkWorld
                        (mkDB (cafes (db w))
                           (map (fun r => if has_user_id k r then u' else r)
                              (users (db w))))
                        (session w) (flashes w))).
  { unfold edit_profile. rewrite (login_required_authenticated _ _ _ _ Hu).
    unfold edit_profile_view, bind. rewrite Hu.
    unfold formdata, is_submitted. rewrite Hm.
    unfold EditProfileForm.validate, validate_required, DataRequired.
    cbn [EditProfileForm.make EditProfileForm.name]. rewrite Hn.
    destruct (strip n) eqn:Es; [congruence|].
    cbn [field_errors andb no_errors].
    unfold get_db, put_db, lift, ret, update_user, user_not_null, u'.
    rewrite Hk, He, Hh. reflexivity. }
  eexists. split; [exact Hrun|]. cbn [db cafes users session flashes].
  repeat split.
  - apply map_replaced. intros r Hr Hp. rewrite (Only r Hr Hp). reflexivity.
  - apply map_replaced. intros r Hr Hp. rewrite (Only r Hr Hp).
    cbn. now rewrite He.
  - apply map_replaced. intros r Hr Hp. rewrite (Only r Hr Hp).
    cbn. now rewrite Hh.
  - intros r Hr Hne. apply in_map_iff. exists r. split; [|exact Hr].
    destruct (has_user_id k r) eqn:E; [|reflexivity].
    apply opt_N_eqb_eq in E. congruence.
  - apply (current_user_authenticated _ k); [exact Hsess|].
    cbn [db users]. apply (filter_replaced _ _ u); [|exact Hf].
    unfold has_user_id. cbn. rewrite Hk. cbn. apply N.eqb_refl.
Qed.

Lemma edit_profile_changes_the_name_only_witness :
  exists w',
    edit_profile (post "/edit_profile" [("name", py "Alice B")]%string)
      alice_world
    = Return (redirect (url_for Eindex)) w'
    /\ cafes (db w') = cafes (db alice_world)
    /\ session w' = session alice_world
    /\ flashes w' = flashes alice_world
    /\ map User.id (users (db w')) = map User.id (users (db alice_world))
    /\ map User.email (users (db w')) = map User.email (users (db alice_world))
    /\ map User.password_hash (users (db w'))
       = map User.password_hash (users (db alice_world))
    /\ (forall r, In r (users (db alice_world)) -> User.id r <> User.id alice ->
                  In r (users (db w')))
    /\ current_user w'
       = Return (Authenticated
                   (User.mk (User.id alice) (Some (py "alice@example.com"))
                      (Some (py "hash:correct horse")) (Some (py "Alice B"))))
           w'.
Proof.
  apply (edit_profile_changes_the_name_only
           (post "/edit_profile" [("name", py "Alice B")]%string)
           alice_world alice (py "alice@example.com")
           (py "hash:correct horse") (py "Alice B"));
    try (vm_compute; reflexivity).
  vm_compute; discriminate.
Defined.

(** ** What every view keeps *)

(** A property of the database that a view keeps is kept by the view
    behind [login_required]. *)
Lemma login_required_keeps
  (P : DB -> Prop) (view : Request -> M Response) (req : Request) (w : World) :
  P (db w) ->
  (forall u, current_user w = Return (Authenticated u) w ->
             P (db (outcome_world (view req w)))) ->
  P (db (outcome_world (login_required view req w))).
Proof.
  intros HP Hview. unfold login_required, bind.
  destruct (current_user w) as [a w0|e w0] eqn:E.
  - pose proof (current_user_world _ _ _ E); subst w0.
    destruct a as [|u]; [exact HP|]. exact (Hview u eq_refl).
  - pose proof (current_user_raised _ _ _ E); subst w0. exact HP.
Qed.

(** X14.  A GET request changes no row: whatever the session and the
    database are, and whether the view returns or raises, after a GET of
    any of the nine views the database is the one before. *)
Theorem get_changes_no_row
  (generate_password_hash : str -> str -> str)
  (check_password_hash : str -> str -> bool)
  (cafe_id : N) (req : Request) (w : World) :
  method req = GET ->
  db (outcome_world (index req w)) = db w
  /\ db (outcome_world (show_cafe cafe_id req w)) = db w
  /\ db (outcome_world (add_cafe req w)) = db w
  /\ db (outcome_world (edit_cafe cafe_id req w)) = db w
  /\ db (outcome_world (delete_cafe cafe_id req w)) = db w
  /\ db (outcome_world (edit_profile req w)) = db w
  /\ db (outcome_world (signup generate_password_hash req w)) = db w
  /\ db (outcome_world (login check_password_hash req w)) = db w
  /\ db (outcome_world (logout req w)) = db w.
Proof.
  intros Hm.
  assert (S : is_submitted req = false) by (unfold is_submitted; now rewrite Hm).
  repeat match goal with |- _ /\ _ => split end.
  - unfold index, bind, get_db. now rewrite render_world.
  - unfold show_cafe, bind, get_db, lift, ret.
    destruct (get_cafe cafe_id (db w)) as [[cafe|]|e]; try reflexivity.
    now rewrite render_world.
  - apply (login_required_keeps (fun d => d = db w)); [reflexivity|].
    intros _ _. unfold add_cafe_view, bind, ret. rewrite S.
    cbn [andb]. now rewrite render_world.
  - apply (login_required_keeps (fun d => d = db w)); [reflexivity|].
    intros _ _. unfold edit_cafe_view, bind, get_db, ret, lift.
    destruct (get_cafe cafe_id (db w)) as [[cafe|]|e]; try reflexivity.
    rewrite Hm, S.
    destruct (AddCafeForm.prefill_form _ _); [|reflexivity].
    cbn [andb]. now rewrite render_world.
  - apply (login_required_keeps (fun d => d = db w)); [reflexivity|].
    intros _ _. unfold delete_cafe_view, bind, get_db, lift, ret.
    destruct (get_cafe cafe_id (db w)) as [[cafe|]|e]; try reflexivity.
    rewrite S. cbn [andb]. now rewrite render_world.
  - apply (login_required_keeps (fun d => d = db w)); [reflexivity|].
    intros u Hu. unfold edit_profile_view, bind. rewrite Hu, S.
    cbn [andb]. now rewrite render_world.
  - unfold signup. rewrite S. cbn [andb]. now rewrite render_world.
  - unfold login. rewrite S. cbn [andb]. now rewrite render_world.
  - apply (login_required_keeps (fun d => d = db w)); [reflexivity|].
    intros _ _. reflexivity.
Qed.

Lemma get_changes_no_row_witness :
  db (outcome_world (edit_cafe 2 (get "/cafe/2/edit") two_cafes_world))
  = db two_cafes_world.
Proof.
  apply (get_changes_no_row toy_generate toy_check 2 (get "/cafe/2/edit")
           two_cafes_world).
  reflexivity.
Defined.


(** Deleting rows keeps a unique column unique. *)
Lemma filter_keeps_unique {A B} (f : A -> B) (keep : A -> bool)
  (rows : list A) :
  unique_on f rows -> unique_on f (filter keep rows).
Proof.
  unfold unique_on. induction rows as [|row rows IH]; cbn [filter map].
  - trivial.
  - intros U. apply NoDup_cons_iff in U as [Fresh U].
    destruct (keep row); [|exact (IH U)].
    cbn [map]. apply NoDup_cons; [|exact (IH U)].
    contradict Fresh.
    apply in_map_iff in Fresh as (other & Same & Kept).
    apply in_map_iff. exists other. split; [exact Same|].
    exact (proj1 (proj1 (filter_In _ _ _) Kept)).
Qed.

Lemma map_unreplaced {A} (p : A -> bool) (c : A) (l : list A) :
  (forall r, In r l -> p r = false) ->
  map (fun r => if p r then c else r) l = l.
Proof.
  induction l as [|x l IH]; simpl; intros H; [reflexivity|].
  rewrite (H x) by now left. f_equal. apply IH. intros r Hr. apply H.
  now right.
Qed.

(** An insertion into the cafe table keeps the ids and the names
    unique. *)
Lemma insert_cafe_unique (c row : Cafe.t) (d d' : DB) :
  insert_cafe c d = Ok (row, d') -> db_unique d -> db_unique d'.
Proof.
  unfold insert_cafe, db_unique, unique_on. intros H (Ci & Cn & Ui & Ue).
  destruct (cafe_not_null c); [|discriminate].
  destruct (existsb (has_cafe_name (Cafe.name c)) (cafes d)) eqn:Ex;
    [discriminate|].
  cbn [andb negb] in H. injection H as <- <-. cbn [cafes users].
  rewrite !map_app. cbn [map with_cafe_id Cafe.name Cafe.id].
  repeat split; try assumption.
  - apply NoDup_snoc; [exact Ci|].
    intros Hin. apply next_id_bound in Hin. lia.
  - apply NoDup_snoc; [exact Cn|].
    intros Hin. apply in_map_iff in Hin as (x & Hx & Hin).
    assert (existsb (has_cafe_name (Cafe.name c)) (cafes d) = true);
      [|congruence].
    apply existsb_exists. exists x. split; [exact Hin|].
    unfold has_cafe_name. rewrite Hx. apply opt_str_eqb_refl.
Qed.

Lemma replaced_names_unique (k : N) (c : Cafe.t) (l : list Cafe.t) :
  NoDup (map Cafe.id l) -> NoDup (map Cafe.name l) ->
  existsb (fun r => has_cafe_name (Cafe.name c) r && negb (has_cafe_id k r)) l
  = false ->
  NoDup (map Cafe.name (map (fun r => if has_cafe_id k r then c else r) l)).
Proof.
  induction l as [|x l IH]; cbn [map existsb]; intros Hi Hn Hc;
    [constructor|].
  inversion Hi as [|? ? Hxi Hli]; inversion Hn as [|? ? Hxn Hln]; subst.
  apply orb_false_iff in Hc as [Hcx Hcl].
  assert (Clash : forall r, In r l -> Cafe.name r = Cafe.name c ->
                            has_cafe_id k r = true).
  { intros r Hr Hname.
    destruct (has_cafe_id k r) eqn:E; [reflexivity|].
    assert (existsb (fun r => has_cafe_name (Cafe.name c) r
                              && negb (has_cafe_id k r)) l = true);
      [|congruence].
    apply existsb_exists. exists r. split; [exact Hr|].
    rewrite E. unfold has_cafe_name. rewrite Hname.
    now rewrite opt_str_eqb_refl. }
  destruct (has_cafe_id k x) eqn:Ex.
  - assert (Hnone : forall r, In r l -> has_cafe_id k r = false).
    { intros r Hr. destruct (has_cafe_id k r) eqn:E; [|reflexivity].
      exfalso. apply Hxi. apply opt_N_eqb_eq in Ex, E.
      rewrite Ex, <- E. now apply in_map. }
    rewrite (map_unreplaced _ _ _ Hnone). constructor; [|exact Hln].
    intros Hin. apply in_map_iff in Hin as (r & Hr & Hin).
    specialize (Clash r Hin Hr).
    rewrite (Hnone r Hin) in Clash. discriminate.
  - constructor; [|now apply IH].
    intros Hin. apply in_map_iff in Hin as (y & Hy & Hin).
    apply in_map_iff in Hin as (r & Hr & Hin). subst y.
    destruct (has_cafe_id k r) eqn:E.
    + cbn [negb] in Hcx. rewrite andb_true_r in Hcx.
      unfold has_cafe_name in Hcx. rewrite <- Hy in Hcx.
      now rewrite opt_str_eqb_refl in Hcx.
    + apply Hxn. rewrite <- Hy. now apply in_map.
Qed.

(** An update of the rows of one id by a row of that id keeps the ids and
    the names unique. *)
Lemma update_cafe_unique (k : N) (c : Cafe.t) (d d' : DB) :
  Cafe.id c = Some k ->
  update_cafe k c d = Ok d' -> db_unique d -> db_unique d'.
Proof.
  unfold update_cafe, db_unique, unique_on. intros Hid H (Ci & Cn & Ui & Ue).
  destruct (cafe_not_null c); [|discriminate].
  destruct (existsb _ (cafes d)) eqn:Ex; [discriminate|].
  cbn [andb negb] in H. injection H as <-. cbn [cafes users].
  repeat split; try assumption.
  - rewrite map_replaced; [exact Ci|].
    intros r _ Hr. apply opt_N_eqb_eq in Hr. congruence.
  - now apply replaced_names_unique.
Qed.

(** An update of the current user by a row with the same id and email
    keeps the ids and the emails unique. *)
Lemma update_user_unique (k : N) (u u' : User.t) (d d' : DB) :
  filter (has_user_id k) (users d) = [u] ->
  User.id u' = User.id u -> User.email u' = User.email u ->
  update_user k u' d = Ok d' -> db_unique d -> db_unique d'.
Proof.
  unfold update_user, db_unique, unique_on.
  intros Hf Hid He H (Ci & Cn & Ui & Ue).
  destruct (user_not_null u'); [|discriminate].
  injection H as <-. cbn [cafes users].
  assert (Only : forall r, In r (users d) -> has_user_id k r = true -> r = u).
  { intros r Hr Hp.
    assert (In r (filter (has_user_id k) (users d)))
      by (apply filter_In; tauto).
    rewrite Hf in H. destruct H as [H|[]]. now symmetry. }
  repeat split; try assumption.
  - rewrite map_replaced; [exact Ui|].
    intros r Hr Hp. now rewrite (Only r Hr Hp).
  - rewrite map_replaced; [exact Ue|].
    intros r Hr Hp. now rewrite (Only r Hr Hp).
Qed.

Lemma populate_obj_id (capacity : N) (f : AddCafeForm.t) (obj cafe : Cafe.t) :
  AddCafeForm.populate_obj capacity f obj = Ok cafe ->
  Cafe.id cafe = Cafe.id obj.
Proof.
  intros H. apply populate_obj_price in H as (d & _ & _ & ->). reflexivity.
Qed.

(** X15.  The views keep the unique columns unique: when no two cafes
    share an id or a name and no two users share an id or an email, the
    same holds of the database that any of the nine views leaves, for
    every request and every session, whether the view returns or
    raises. *)
Theorem views_keep_columns_unique
  (generate_password_hash : str -> str -> str)
  (check_password_hash : str -> str -> bool)
  (cafe_id : N) (req : Request) (w : World) :
  db_unique (db w) ->
  db_unique (db (outcome_world (index req w)))
  /\ db_unique (db (outcome_world (show_cafe cafe_id req w)))
  /\ db_unique (db (outcome_world (add_cafe req w)))
  /\ db_unique (db (outcome_world (edit_cafe cafe_id req w)))
  /\ db_unique (db (outcome_world (delete_cafe cafe_id req w)))
  /\ db_unique (db (outcome_world (edit_profile req w)))
  /\ db_unique (db (outcome_world (signup generate_password_hash req w)))
  /\ db_unique (db (outcome_world (login check_password_hash req w)))
  /\ db_unique (db (outcome_world (logout req w))).
Proof.
  intros U.
  assert (R : forall p w0, db w0 = db w \/ db_unique (db w0) ->
                           db_unique (db (outcome_world (render p w0)))).
  { intros p w0 H. rewrite render_world. destruct H as [->|H]; assumption. }
  repeat match goal with |- _ /\ _ => split end.
  - unfold index, bind, get_db. apply R. now left.
  - unfold show_cafe, bind, get_db, lift, ret.
    destruct (get_cafe cafe_id (db w)) as [[cafe|]|e]; try exact U.
    apply R. now left.
  - apply (login_required_keeps db_unique); [exact U|]. intros _ _.
    unfold add_cafe_view, bind, get_db, put_db, ret, lift.
    destruct (is_submitted req); [|apply R; now left].
    destruct (AddCafeForm.validate _) as [[|x errs]|e]; try exact U;
      [|apply R; now left].
    cbn [andb no_errors].
    destruct (AddCafeForm.populate_obj _ _ _) as [cafe|e]; [|exact U].
    destruct (insert_cafe cafe (db w)) as [[row d]|e] eqn:I; [|exact U].
    cbn. now apply (insert_cafe_unique _ _ _ _ I).
  - apply (login_required_keeps db_unique); [exact U|]. intros _ _.
    unfold edit_cafe_view, bind, get_db, put_db, ret, lift.
    destruct (get_cafe cafe_id (db w)) as [[cafe|]|e] eqn:G; try exact U.
    assert (Hid : Cafe.id cafe = Some cafe_id).
    { apply get_cafe_inv in G as [_ G]. apply find_some in G as [_ H].
      now apply opt_N_eqb_eq in H. }
    unfold is_submitted. destruct (method req).
    + destruct (AddCafeForm.prefill_form _ cafe) as [form|e]; [|exact U].
      apply R. now left.
    + destruct (AddCafeForm.validate _) as [[|x errs]|e]; try exact U;
        [|apply R; now left].
      cbn [andb no_errors].
      destruct (AddCafeForm.populate_obj _ _ cafe) as [cafe'|e] eqn:P;
        [|exact U].
      destruct (update_cafe cafe_id cafe' (db w)) as [d|e] eqn:Up;
        [|exact U].
      cbn. apply (update_cafe_unique cafe_id cafe' (db w) d); auto.
      rewrite (populate_obj_id _ _ _ _ P). exact Hid.
  - apply (login_required_keeps db_unique); [exact U|]. intros _ _.
    unfold delete_cafe_view, bind, get_db, put_db, lift, ret.
    destruct (get_cafe cafe_id (db w)) as [[cafe|]|e]; try exact U.
    destruct (is_submitted req && _); [|apply R; now left].
    destruct (truthy (DeleteCafeForm.submit_delete _)).
    + cbn. destruct U as (Ci & Cn & Ui & Ue). unfold db_unique, unique_on.
      cbn [delete_cafe_row cafes users].
      repeat split; try assumption; now apply filter_keeps_unique.
    + destruct (truthy (DeleteCafeForm.submit_cancel _)); [exact U|].
      apply R. now left.
  - apply (login_required_keeps db_unique); [exact U|]. intros u Hu.
    unfold edit_profile_view, bind. rewrite Hu.
    destruct (is_submitted req && _); [|apply R; now left].
    destruct (current_user_inv _ _ _ Hu) as (k & _ & Hf & Hk & _).
    unfold get_db, put_db, lift, ret. rewrite Hk.
    destruct (update_user k _ (db w)) as [d|e] eqn:Up; [|exact U].
    cbn. eapply update_user_unique; [exact Hf| | |exact Up|exact U].
    + cbn. now symmetry.
    + reflexivity.
  - unfold signup, bind, get_db, put_db, ret, lift, flash.
    destruct (is_submitted req && _); [|apply R; now left].
    destruct (select_user_by_email _ (db w)); [exact U|].
    destruct (SignupForm.password _); [|exact U].
    destruct (insert_user _ (db w)) as [[row d]|e] eqn:I; [|exact U].
    cbn. destruct U as (Ci & Cn & Ui & Ue).
    destruct (insert_user_unique _ _ _ _ I Ue Ui) as [Ue' Ui'].
    unfold insert_user in I.
    destruct (_ && _) in I; [|discriminate]. injection I as _ <-.
    unfold db_unique. cbn [cafes users] in *. tauto.
  - unfold login, bind, get_db, ret, lift, flash, login_user.
    destruct (is_submitted req && _); [|apply R; now left].
    destruct (select_user_by_email _ (db w)) as [u|]; cbn.
    + destruct (check_password _ _ _) as [[|]|e]; cbn; try exact U.
      * now destruct (args_next req).
      * apply R. now left.
    + apply R. now left.
  - apply (login_required_keeps db_unique); [exact U|]. intros _ _.
    exact U.
Qed.

Lemma views_keep_columns_unique_witness :
  db_unique
    (db (outcome_world
           (add_cafe (post "/cafe/add" (cafe_submission "Latte Lab" "3"))
              two_cafes_world))).
Proof.
  apply (views_keep_columns_unique toy_generate toy_check 1
           (post "/cafe/add" (cafe_submission "Latte Lab" "3"))
           two_cafes_world).
  unfold db_unique, unique_on. cbn.
  repeat split; repeat constructor; simpl; intuition discriminate.
Defined.
